(** * Global state of the BitClout backend: key codec and local/remote dispatch

    A shallow embedding of [routes/global_state.go]:

    - the key constructors ([GlobalStateKeyFor...]) as functions into byte
      lists, and a second time over an explicit store of backing arrays, where
      Go's [append] may write in place;
    - the five primitives ([GlobalStatePut], [GlobalStateGet],
      [GlobalStateBatchGet], [GlobalStateDelete], [GlobalStateSeek]) as
      state-passing functions over the local database and a log of the calls
      they make to the outside (HTTP, JSON, the database).

    The libraries the file calls (badger, net/http, encoding/json,
    phonenumbers, the Unicode tables behind [strings.ToLower], the core
    library) are interfaces here: type classes whose fields are the calls the
    source makes. *)

From Stdlib Require Import ZArith Lia List Bool.
From Stdlib.Strings Require Import String Ascii Byte.
From stdpp Require Import base gmap list strings.

Open Scope string_scope.
Open Scope list_scope.

(** ** Go values *)

(** A Go [[]byte] read as a value: the list of its bytes.  A nil slice and an
    empty slice both have length zero and are both the empty list. *)
Abbreviation bytes := (list byte).

#[global] Instance byte_eq_dec : EqDecision byte := Byte.byte_eq_dec.
#[global] Instance byte_countable : Countable byte :=
  inj_countable Byte.to_N Byte.of_N Byte.of_to_N.

(** [[]byte(s)] for a Go string [s]. *)
Definition bytes_of_string (s : string) : bytes := list_byte_of_string s.

(** A Go [error] is its message; [(v, nil)] is [Ok v] and [(nil, err)] is
    [Err msg]. *)
Inductive result (A : Type) : Type :=
| Ok (a : A)
| Err (msg : string).
Arguments Ok {A} a.
Arguments Err {A} msg.

Definition is_ok {A} (r : result A) : bool :=
  match r with Ok _ => true | Err _ => false end.

Definition is_err {A} (r : result A) : bool := negb (is_ok r).

(** ** The key prefixes (lines 71-120) *)

Definition _GlobalStatePrefixPublicKeyToUserMetadata : bytes := [x00].
Definition _GlobalStatePrefixTstampNanosPostHash : bytes := [x01].
Definition _GlobalStatePrefixPhoneNumberToPhoneNumberMetadata : bytes := [x02].
Definition _GlobalStatePrefixForVerifiedMap : bytes := [x03].
Definition _GlobalStatePrefixTstampNanosPinnedPostHash : bytes := [x04].
Definition _GlobalStatePrefixUsernameVerificationAuditLog : bytes := [x05].
Definition _GlobalStatePrefixPublicKeyToGraylistState : bytes := [x06].
Definition _GlobalStatePrefixPublicKeyToBlacklistState : bytes := [x07].
Definition _GlobalStatePrefixUserPublicKeyContactPublicKeyToMostRecentReadTstampNanos
  : bytes := [x08].

(** The nine declared prefixes, in declaration order. *)
Definition declared_prefixes : list bytes :=
  [ _GlobalStatePrefixPublicKeyToUserMetadata;
    _GlobalStatePrefixTstampNanosPostHash;
    _GlobalStatePrefixPhoneNumberToPhoneNumberMetadata;
    _GlobalStatePrefixForVerifiedMap;
    _GlobalStatePrefixTstampNanosPinnedPostHash;
    _GlobalStatePrefixUsernameVerificationAuditLog;
    _GlobalStatePrefixPublicKeyToGraylistState;
    _GlobalStatePrefixPublicKeyToBlacklistState;
    _GlobalStatePrefixUserPublicKeyContactPublicKeyToMostRecentReadTstampNanos ].

(** ** Library calls of the key codec *)

Definition byte_of_Z (z : Z) : byte :=
  byte_of_ascii (ascii_of_N (Z.to_N (z mod 256))).

(** Modelled from the spec: [lib.EncodeUint64] belongs to the core library,
    which is not part of this repository.  The spec gives the timestamp field
    of a feed key as big-endian and of fixed width; a [uint64] takes eight
    bytes, most significant first. *)
Definition EncodeUint64 (num : Z) : bytes :=
  map (fun i : Z => byte_of_Z (Z.shiftr (num mod 2 ^ 64) (8 * i)))
      [7; 6; 5; 4; 3; 2; 1; 0]%Z.

(** [strings.ToLower] of the Go standard library.  A string of ASCII bytes
    only is handled byte by byte (['A'..'Z'] moved by ['a' - 'A']); any other
    string is read as UTF-8 and mapped rune by rune with [unicode.ToLower],
    which consults the Unicode case tables, the library's, for a rune above
    [MaxASCII]. *)
Class UnicodeLib := {
  (** [unicode.To(unicode.LowerCase, r)] *)
  unicode_To_LowerCase : Z -> Z
}.

Definition is_ascii_byte (c : ascii) : bool := (nat_of_ascii c <? 128)%nat.

Definition is_upper (c : ascii) : bool :=
  ((65 <=? nat_of_ascii c) && (nat_of_ascii c <=? 90))%nat.

Definition lower_byte (c : ascii) : ascii :=
  if is_upper c then ascii_of_nat (nat_of_ascii c + 32) else c.

Fixpoint string_forallb (p : ascii -> bool) (s : string) : bool :=
  match s with
  | EmptyString => true
  | String c s' => p c && string_forallb p s'
  end.

Fixpoint string_existsb (p : ascii -> bool) (s : string) : bool :=
  match s with
  | EmptyString => false
  | String c s' => p c || string_existsb p s'
  end.

Fixpoint string_map (f : ascii -> ascii) (s : string) : string :=
  match s with
  | EmptyString => EmptyString
  | String c s' => String (f c) (string_map f s')
  end.

Definition isASCII (s : string) : bool := string_forallb is_ascii_byte s.
Definition hasUpper (s : string) : bool := string_existsb is_upper s.

(** *** UTF-8, as package [unicode/utf8] reads and writes it *)

Definition RuneError : Z := 0xFFFD.
Definition RuneSelf : Z := 0x80.
Definition MaxASCII : Z := 0x7F.
Definition MaxRune : Z := 0x10FFFF.

Definition byte_value (c : ascii) : Z := Z.of_N (N_of_ascii c).
Definition ascii_of_Z (z : Z) : ascii := ascii_of_N (Z.to_N (z mod 256)).

(** The table [first] with [acceptRanges]: for the first byte of a sequence
    of more than one byte, the length of the sequence and the range of its
    second byte; [None] for a byte that starts no sequence. *)
Definition utf8_first (s0 : Z) : option (nat * Z * Z) :=
  if (s0 <? 0xC2)%Z then None
  else if (s0 <=? 0xDF)%Z then Some (2%nat, 0x80%Z, 0xBF%Z)
  else if (s0 =? 0xE0)%Z then Some (3%nat, 0xA0%Z, 0xBF%Z)
  else if (s0 <=? 0xEC)%Z then Some (3%nat, 0x80%Z, 0xBF%Z)
  else if (s0 =? 0xED)%Z then Some (3%nat, 0x80%Z, 0x9F%Z)
  else if (s0 <=? 0xEF)%Z then Some (3%nat, 0x80%Z, 0xBF%Z)
  else if (s0 =? 0xF0)%Z then Some (4%nat, 0x90%Z, 0xBF%Z)
  else if (s0 <=? 0xF3)%Z then Some (4%nat, 0x80%Z, 0xBF%Z)
  else if (s0 =? 0xF4)%Z then Some (4%nat, 0x80%Z, 0x8F%Z)
  else None.

(** A continuation byte in its place: [b & 0x3F], shifted. *)
Definition utf8_bits (mask : Z) (b : Z) (shift : Z) : Z :=
  Z.shiftl (Z.land b mask) shift.

(** [utf8.DecodeRuneInString]: the first rune of [s] and its width in bytes;
    [(RuneError, 1)] for a byte that is not the start of a well-formed
    sequence, [(RuneError, 0)] for the empty string. *)
Definition utf8_DecodeRuneInString (s : string) : Z * nat :=
  match s with
  | EmptyString => (RuneError, 0)
  | String c0 t0 =>
      let s0 := byte_value c0 in
      if (s0 <? RuneSelf)%Z then (s0, 1)
      else
        match utf8_first s0 with
        | None => (RuneError, 1)
        | Some (sz, lo, hi) =>
            if (String.length s <? sz)%nat then (RuneError, 1)
            else
              match t0 with
              | EmptyString => (RuneError, 1)
              | String c1 t1 =>
                  let s1 := byte_value c1 in
                  if (s1 <? lo)%Z || (hi <? s1)%Z then (RuneError, 1)
                  else if (sz <=? 2)%nat then
                    (Z.lor (utf8_bits 0x1F s0 6) (utf8_bits 0x3F s1 0), 2)
                  else
                    match t1 with
                    | EmptyString => (RuneError, 1)
                    | String c2 t2 =>
                        let s2 := byte_value c2 in
                        if (s2 <? 0x80)%Z || (0xBF <? s2)%Z then (RuneError, 1)
                        else if (sz <=? 3)%nat then
                          (Z.lor (utf8_bits 0x0F s0 12)
                             (Z.lor (utf8_bits 0x3F s1 6)
                                    (utf8_bits 0x3F s2 0)), 3)
                        else
                          match t2 with
                          | EmptyString => (RuneError, 1)
                          | String c3 _ =>
                              let s3 := byte_value c3 in
                              if (s3 <? 0x80)%Z || (0xBF <? s3)%Z
                              then (RuneError, 1)
                              else
                                (Z.lor (utf8_bits 0x07 s0 18)
                                   (Z.lor (utf8_bits 0x3F s1 12)
                                      (Z.lor (utf8_bits 0x3F s2 6)
                                             (utf8_bits 0x3F s3 0))), 4)
                          end
                    end
              end
        end
  end.

(** The bytes [utf8.EncodeRune] writes for [r]: one to four bytes, those of
    [RuneError] for a surrogate and for a value that is no code point. *)
Definition utf8_EncodeRune (r : Z) : string :=
  let cont (shift : Z) : ascii :=
    ascii_of_Z (Z.lor 0x80 (Z.land (Z.shiftr r shift) 0x3F)) in
  let i := (r mod 2 ^ 32)%Z in
  if (i <=? 0x7F)%Z then String (ascii_of_Z r) EmptyString
  else if (i <=? 0x7FF)%Z then
    String (ascii_of_Z (Z.lor 0xC0 (Z.shiftr r 6)))
      (String (cont 0%Z) EmptyString)
  else if (MaxRune <? i)%Z || ((0xD800 <=? i)%Z && (i <=? 0xDFFF)%Z) then
    String (ascii_of_Z 0xEF)
      (String (ascii_of_Z 0xBF) (String (ascii_of_Z 0xBD) EmptyString))
  else if (i <=? 0xFFFF)%Z then
    String (ascii_of_Z (Z.lor 0xE0 (Z.shiftr r 12)))
      (String (cont 6%Z) (String (cont 0%Z) EmptyString))
  else
    String (ascii_of_Z (Z.lor 0xF0 (Z.shiftr r 18)))
      (String (cont 12%Z)
         (String (cont 6%Z) (String (cont 0%Z) EmptyString))).

(** [strings.Map(mapping, s)]: the runes of [s], read one after the other,
    each replaced by the encoding of its image under [mapping], or dropped
    when the image is negative; a byte that starts no well-formed sequence is
    read as [RuneError].  [skip] counts the bytes of the current rune that are
    still to be passed over. *)
Fixpoint Map_from (mapping : Z -> Z) (skip : nat) (s : string) : string :=
  match s with
  | EmptyString => EmptyString
  | String _ rest =>
      match skip with
      | S k => Map_from mapping k rest
      | O =>
          let '(c, width) := utf8_DecodeRuneInString s in
          let r := mapping c in
          (if (0 <=? r)%Z then utf8_EncodeRune r else EmptyString)
          +:+ Map_from mapping (width - 1) rest
      end
  end.

Definition strings_Map (mapping : Z -> Z) (s : string) : string :=
  Map_from mapping 0 s.

(** [unicode.ToLower] *)
Definition unicode_ToLower `{UnicodeLib} (r : Z) : Z :=
  if (r <=? MaxASCII)%Z then
    if (0x41 <=? r)%Z && (r <=? 0x5A)%Z then (r + 0x20)%Z else r
  else unicode_To_LowerCase r.

Definition strings_ToLower `{UnicodeLib} (s : string) : string :=
  if isASCII s then
    if hasUpper s then string_map lower_byte s else s
  else strings_Map unicode_ToLower s.

(** The phone number library: [phonenumbers.Parse] and
    [phonenumbers.Format]. *)
Inductive PhoneNumberFormat := E164 | INTERNATIONAL | NATIONAL | RFC3966.

Class PhoneLib := {
  PhoneNumber : Type;
  phonenumbers_Parse : string -> string -> result PhoneNumber;
  phonenumbers_Format : PhoneNumber -> PhoneNumberFormat -> string
}.

(** ** The key constructors, as values (lines 193-266)

    [append([]byte{}, p...)] yields the bytes of [p]; [append(k, x...)] yields
    the bytes of [k] followed by those of [x]. *)

Definition globalStateKeyForPhoneNumberBytesToPhoneNumberMetadata
    (phoneNumberBytes : bytes) : bytes :=
  let prefixCopy := [] ++ _GlobalStatePrefixPhoneNumberToPhoneNumberMetadata in
  let key := prefixCopy ++ phoneNumberBytes in
  key.

Definition GlobalStateKeyForPhoneNumberStringToPhoneNumberMetadata `{PhoneLib}
    (phoneNumber : string) : result bytes :=
  match phonenumbers_Parse phoneNumber "" with
  | Err err =>
      Err (": " +:+
           ("GlobalStateKeyForPhoneNumberStringToPhoneNumberMetadata: " +:+
            "Problem with phonenumbers.Parse: " +:+ err))
  | Ok parsedNumber =>
      let formattedNumber := phonenumbers_Format parsedNumber E164 in
      Ok (globalStateKeyForPhoneNumberBytesToPhoneNumberMetadata
            (bytes_of_string formattedNumber))
  end.

Definition GlobalStateKeyForPublicKeyToUserMetadata (profilePubKey : bytes)
    : bytes :=
  let prefixCopy := [] ++ _GlobalStatePrefixPublicKeyToUserMetadata in
  let key := prefixCopy ++ profilePubKey in
  key.

Definition GlobalStateKeyForTstampPostHash (tstampNanos : Z) (postHash : bytes)
    : bytes :=
  let key := [] ++ _GlobalStatePrefixTstampNanosPostHash in
  let key := key ++ EncodeUint64 tstampNanos in
  let key := key ++ postHash in
  key.

Definition GlobalStateKeyForTstampPinnedPostHash (tstampNanos : Z)
    (postHash : bytes) : bytes :=
  let key := [] ++ _GlobalStatePrefixTstampNanosPinnedPostHash in
  let key := key ++ EncodeUint64 tstampNanos in
  let key := key ++ postHash in
  key.

Definition GlobalStateKeyForUsernameVerificationAuditLogs `{UnicodeLib}
    (username : string) : bytes :=
  let key := [] ++ _GlobalStatePrefixUsernameVerificationAuditLog in
  let key := key ++ bytes_of_string (strings_ToLower username) in
  key.

Definition GlobalStateKeyForGraylistedProfile (profilePubKey : bytes) : bytes :=
  let key := [] ++ _GlobalStatePrefixPublicKeyToGraylistState in
  let key := key ++ profilePubKey in
  key.

Definition GlobalStateKeyForBlacklistedProfile (profilePubKey : bytes) : bytes :=
  let key := [] ++ _GlobalStatePrefixPublicKeyToBlacklistState in
  let key := key ++ profilePubKey in
  key.

Definition GlobalStateKeyForUserPkContactPkToMostRecentReadTstampNanos
    (userPubKey contactPubKey : bytes) : bytes :=
  let prefixCopy :=
    [] ++ _GlobalStatePrefixUserPublicKeyContactPublicKeyToMostRecentReadTstampNanos in
  let key := prefixCopy ++ userPubKey in
  let key := key ++ contactPubKey in
  key.

(** ** Calls of the key constructors

    One constructor per exported key function; [B] is what a [[]byte]
    argument is (its bytes, or a slice into the store) and [H] what a
    [*lib.BlockHash] argument is (its bytes, or the address of the array). *)

Inductive record_kind :=
| KindUserMetadata
| KindFeedEntry
| KindPhoneMetadata
| KindPinnedFeedEntry
| KindAuditLog
| KindGraylist
| KindBlacklist
| KindReadCursor.

Inductive key_call (B H : Type) : Type :=
| CallPublicKeyToUserMetadata (profilePubKey : B)
| CallTstampPostHash (tstampNanos : Z) (postHash : H)
| CallTstampPinnedPostHash (tstampNanos : Z) (postHash : H)
| CallPhoneNumberString (phoneNumber : string)
| CallPhoneNumberBytes (phoneNumberBytes : B)
| CallUsernameVerificationAuditLogs (username : string)
| CallGraylistedProfile (profilePubKey : B)
| CallBlacklistedProfile (profilePubKey : B)
| CallUserPkContactPk (userPubKey contactPubKey : B).
Arguments CallPublicKeyToUserMetadata {B H} profilePubKey.
Arguments CallTstampPostHash {B H} tstampNanos postHash.
Arguments CallTstampPinnedPostHash {B H} tstampNanos postHash.
Arguments CallPhoneNumberString {B H} phoneNumber.
Arguments CallPhoneNumberBytes {B H} phoneNumberBytes.
Arguments CallUsernameVerificationAuditLogs {B H} username.
Arguments CallGraylistedProfile {B H} profilePubKey.
Arguments CallBlacklistedProfile {B H} profilePubKey.
Arguments CallUserPkContactPk {B H} userPubKey contactPubKey.

Definition kind_of {B H} (c : key_call B H) : record_kind :=
  match c with
  | CallPublicKeyToUserMetadata _ => KindUserMetadata
  | CallTstampPostHash _ _ => KindFeedEntry
  | CallTstampPinnedPostHash _ _ => KindPinnedFeedEntry
  | CallPhoneNumberString _ => KindPhoneMetadata
  | CallPhoneNumberBytes _ => KindPhoneMetadata
  | CallUsernameVerificationAuditLogs _ => KindAuditLog
  | CallGraylistedProfile _ => KindGraylist
  | CallBlacklistedProfile _ => KindBlacklist
  | CallUserPkContactPk _ _ => KindReadCursor
  end.

(** The prefix variable the source declares for each kind. *)
Definition kind_prefix (k : record_kind) : bytes :=
  match k with
  | KindUserMetadata => _GlobalStatePrefixPublicKeyToUserMetadata
  | KindFeedEntry => _GlobalStatePrefixTstampNanosPostHash
  | KindPhoneMetadata => _GlobalStatePrefixPhoneNumberToPhoneNumberMetadata
  | KindPinnedFeedEntry => _GlobalStatePrefixTstampNanosPinnedPostHash
  | KindAuditLog => _GlobalStatePrefixUsernameVerificationAuditLog
  | KindGraylist => _GlobalStatePrefixPublicKeyToGraylistState
  | KindBlacklist => _GlobalStatePrefixPublicKeyToBlacklistState
  | KindReadCursor =>
      _GlobalStatePrefixUserPublicKeyContactPublicKeyToMostRecentReadTstampNanos
  end.

(** What a call returns: the key, or the error of the one constructor that
    can fail. *)
Definition construct `{PhoneLib} `{UnicodeLib} (c : key_call bytes bytes)
    : result bytes :=
  match c with
  | CallPublicKeyToUserMetadata pk =>
      Ok (GlobalStateKeyForPublicKeyToUserMetadata pk)
  | CallTstampPostHash ts ph => Ok (GlobalStateKeyForTstampPostHash ts ph)
  | CallTstampPinnedPostHash ts ph =>
      Ok (GlobalStateKeyForTstampPinnedPostHash ts ph)
  | CallPhoneNumberString s =>
      GlobalStateKeyForPhoneNumberStringToPhoneNumberMetadata s
  | CallPhoneNumberBytes b =>
      Ok (globalStateKeyForPhoneNumberBytesToPhoneNumberMetadata b)
  | CallUsernameVerificationAuditLogs u =>
      Ok (GlobalStateKeyForUsernameVerificationAuditLogs u)
  | CallGraylistedProfile pk => Ok (GlobalStateKeyForGraylistedProfile pk)
  | CallBlacklistedProfile pk => Ok (GlobalStateKeyForBlacklistedProfile pk)
  | CallUserPkContactPk u c =>
      Ok (GlobalStateKeyForUserPkContactPkToMostRecentReadTstampNanos u c)
  end.

(** Two usernames that differ only in letter case: the same bytes position by
    position, except where one has a letter of ['A'..'Z'] and the other the
    same letter of ['a'..'z']. *)
Definition case_pair (c1 c2 : ascii) : Prop :=
  exists i : nat, (i < 26)%nat /\
    ((c1 = ascii_of_nat (65 + i) /\ c2 = ascii_of_nat (97 + i)) \/
     (c1 = ascii_of_nat (97 + i) /\ c2 = ascii_of_nat (65 + i))).

Inductive differ_only_in_case : string -> string -> Prop :=
| doic_nil : differ_only_in_case EmptyString EmptyString
| doic_same c s1 s2 :
    differ_only_in_case s1 s2 ->
    differ_only_in_case (String c s1) (String c s2)
| doic_case c1 c2 s1 s2 :
    case_pair c1 c2 ->
    differ_only_in_case s1 s2 ->
    differ_only_in_case (String c1 s1) (String c2 s2).

(** ** The key constructors over backing arrays

    A slice is a window on a backing array; [append] writes in place when the
    capacity allows and allocates a new array otherwise.  The package-level
    prefix variables are slice headers held in the store. *)

Module InMemory.

Definition loc := nat.

Record slice := Slice {
  s_arr : loc;   (* the backing array *)
  s_off : nat;   (* index of the slice's first element in it *)
  s_len : nat;
  s_cap : nat
}.

Record Globals := {
  g_PublicKeyToUserMetadata : slice;
  g_TstampNanosPostHash : slice;
  g_PhoneNumberToPhoneNumberMetadata : slice;
  g_ForVerifiedMap : slice;
  g_TstampNanosPinnedPostHash : slice;
  g_UsernameVerificationAuditLog : slice;
  g_PublicKeyToGraylistState : slice;
  g_PublicKeyToBlacklistState : slice;
  g_UserPublicKeyContactPublicKeyToMostRecentReadTstampNanos : slice
}.

Record Mem := {
  heap : gmap loc bytes;
  globals : Globals
}.

Definition set_heap (h : gmap loc bytes) (m : Mem) : Mem :=
  {| heap := h; globals := globals m |}.

(** The runtime's choice of capacity when [append] has to grow a slice of
    capacity [oldcap] to hold [needed] elements: never less than [needed]. *)
Class GoRuntime := {
  growslice_cap : nat -> nat -> nat;
  growslice_cap_ge : forall oldcap needed, needed <= growslice_cap oldcap needed
}.

(** A computation on the store; [None] is a run-time panic. *)
Definition M (A : Type) : Type := Mem -> option (A * Mem).

Definition ret {A} (a : A) : M A := fun m => Some (a, m).

Definition bind {A B} (c : M A) (k : A -> M B) : M B :=
  fun m => match c m with
           | Some (a, m') => k a m'
           | None => None
           end.

Notation "'do' x <~ c ;; k" := (bind c (fun x => k))
  (at level 10, x name, c at level 99, k at level 200).

Definition read_global (f : Globals -> slice) : M slice :=
  fun m => Some (f (globals m), m).

(** The elements of a slice.  A slice of length zero is read without
    touching its array. *)
Definition read_slice (s : slice) : M bytes :=
  fun m =>
    if (s_len s =? 0)%nat then Some ([], m)
    else match heap m !! s_arr s with
         | Some a =>
             if (s_off s + s_len s <=? length a)%nat
             then Some (take (s_len s) (drop (s_off s) a), m)
             else None
         | None => None
         end.

(** A new array holding [contents], at an address not in use. *)
Definition new_array (contents : bytes) : M loc :=
  fun m =>
    let l := fresh (dom (heap m)) in
    Some (l, set_heap (<[l := contents]> (heap m)) m).

(** Overwrite [xs] into array [l] from index [pos]. *)
Definition write_at (l : loc) (pos : nat) (xs : bytes) : M unit :=
  fun m =>
    match xs with
    | [] => Some (tt, m)
    | _ =>
        match heap m !! l with
        | Some a =>
            if (pos + length xs <=? length a)%nat
            then Some (tt, set_heap
                             (<[l := take pos a ++ xs ++ drop (pos + length xs) a]>
                                (heap m)) m)
            else None
        | None => None
        end
    end.

(** [append(s, src...)] *)
Definition go_append `{GoRuntime} (s src : slice) : M slice :=
  do xs <~ read_slice src ;;
  let n := s_len s + length xs in
  if (n <=? s_cap s)%nat then
    do _ <~ write_at (s_arr s) (s_off s + s_len s) xs ;;
    ret (Slice (s_arr s) (s_off s) n (s_cap s))
  else
    do old <~ read_slice s ;;
    let newcap := growslice_cap (s_cap s) n in
    do l <~ new_array (old ++ xs ++ replicate (newcap - n) x00) ;;
    ret (Slice l 0 n newcap).

(** [[]byte{}]: length and capacity zero, at the address every zero-sized
    object shares. *)
Definition zerobase : loc := 0%nat.
Definition empty_literal : slice := Slice zerobase 0 0 0.

(** A new slice holding [bs]: what [[]byte(str)] and [lib.EncodeUint64]
    return. *)
Definition new_slice (bs : bytes) : M slice :=
  do l <~ new_array bs ;;
  ret (Slice l 0 (length bs) (length bs)).

(** [p[:]] for a pointer [p] to an array; a nil or dangling [p] panics. *)
Definition slice_of_array (p : loc) : M slice :=
  fun m => match heap m !! p with
           | Some a => Some (Slice p 0 (length a) (length a), m)
           | None => None
           end.

Definition globalStateKeyForPhoneNumberBytesToPhoneNumberMetadata `{GoRuntime}
    (phoneNumberBytes : slice) : M slice :=
  do g <~ read_global g_PhoneNumberToPhoneNumberMetadata ;;
  do prefixCopy <~ go_append empty_literal g ;;
  do key <~ go_append prefixCopy phoneNumberBytes ;;
  ret key.

Definition GlobalStateKeyForPhoneNumberStringToPhoneNumberMetadata
    `{GoRuntime} `{PhoneLib} (phoneNumber : string) : M (result slice) :=
  match phonenumbers_Parse phoneNumber "" with
  | Err err =>
      ret (Err (": " +:+
                ("GlobalStateKeyForPhoneNumberStringToPhoneNumberMetadata: " +:+
                 "Problem with phonenumbers.Parse: " +:+ err)))
  | Ok parsedNumber =>
      let formattedNumber := phonenumbers_Format parsedNumber E164 in
      do b <~ new_slice (bytes_of_string formattedNumber) ;;
      do key <~ globalStateKeyForPhoneNumberBytesToPhoneNumberMetadata b ;;
      ret (Ok key)
  end.

Definition GlobalStateKeyForPublicKeyToUserMetadata `{GoRuntime}
    (profilePubKey : slice) : M slice :=
  do g <~ read_global g_PublicKeyToUserMetadata ;;
  do prefixCopy <~ go_append empty_literal g ;;
  do key <~ go_append prefixCopy profilePubKey ;;
  ret key.

Definition GlobalStateKeyForTstampPostHash `{GoRuntime}
    (tstampNanos : Z) (postHash : loc) : M slice :=
  do g <~ read_global g_TstampNanosPostHash ;;
  do key <~ go_append empty_literal g ;;
  do ts <~ new_slice (EncodeUint64 tstampNanos) ;;
  do key <~ go_append key ts ;;
  do ph <~ slice_of_array postHash ;;
  do key <~ go_append key ph ;;
  ret key.

Definition GlobalStateKeyForTstampPinnedPostHash `{GoRuntime}
    (tstampNanos : Z) (postHash : loc) : M slice :=
  do g <~ read_global g_TstampNanosPinnedPostHash ;;
  do key <~ go_append empty_literal g ;;
  do ts <~ new_slice (EncodeUint64 tstampNanos) ;;
  do key <~ go_append key ts ;;
  do ph <~ slice_of_array postHash ;;
  do key <~ go_append key ph ;;
  ret key.

Definition GlobalStateKeyForUsernameVerificationAuditLogs
    `{GoRuntime} `{UnicodeLib} (username : string) : M slice :=
  do g <~ read_global g_UsernameVerificationAuditLog ;;
  do key <~ go_append empty_literal g ;;
  do u <~ new_slice (bytes_of_string (strings_ToLower username)) ;;
  do key <~ go_append key u ;;
  ret key.

Definition GlobalStateKeyForGraylistedProfile `{GoRuntime}
    (profilePubKey : slice) : M slice :=
  do g <~ read_global g_PublicKeyToGraylistState ;;
  do key <~ go_append empty_literal g ;;
  do key <~ go_append key profilePubKey ;;
  ret key.

Definition GlobalStateKeyForBlacklistedProfile `{GoRuntime}
    (profilePubKey : slice) : M slice :=
  do g <~ read_global g_PublicKeyToBlacklistState ;;
  do key <~ go_append empty_literal g ;;
  do key <~ go_append key profilePubKey ;;
  ret key.

Definition GlobalStateKeyForUserPkContactPkToMostRecentReadTstampNanos
    `{GoRuntime} (userPubKey contactPubKey : slice) : M slice :=
  do g <~ read_global
         g_UserPublicKeyContactPublicKeyToMostRecentReadTstampNanos ;;
  do prefixCopy <~ go_append empty_literal g ;;
  do key <~ go_append prefixCopy userPubKey ;;
  do key <~ go_append key contactPubKey ;;
  ret key.

(** A call of any of the constructors on slices of the store. *)
Definition run_call `{GoRuntime} `{PhoneLib} `{UnicodeLib}
    (c : key_call slice loc) : M (result slice) :=
  match c with
  | CallPublicKeyToUserMetadata pk =>
      do k <~ GlobalStateKeyForPublicKeyToUserMetadata pk ;; ret (Ok k)
  | CallTstampPostHash ts ph =>
      do k <~ GlobalStateKeyForTstampPostHash ts ph ;; ret (Ok k)
  | CallTstampPinnedPostHash ts ph =>
      do k <~ GlobalStateKeyForTstampPinnedPostHash ts ph ;; ret (Ok k)
  | CallPhoneNumberString s =>
      GlobalStateKeyForPhoneNumberStringToPhoneNumberMetadata s
  | CallPhoneNumberBytes b =>
      do k <~ globalStateKeyForPhoneNumberBytesToPhoneNumberMetadata b ;; ret (Ok k)
  | CallUsernameVerificationAuditLogs u =>
      do k <~ GlobalStateKeyForUsernameVerificationAuditLogs u ;; ret (Ok k)
  | CallGraylistedProfile pk =>
      do k <~ GlobalStateKeyForGraylistedProfile pk ;; ret (Ok k)
  | CallBlacklistedProfile pk =>
      do k <~ GlobalStateKeyForBlacklistedProfile pk ;; ret (Ok k)
  | CallUserPkContactPk u c =>
      do k <~ GlobalStateKeyForUserPkContactPkToMostRecentReadTstampNanos u c ;;
      ret (Ok k)
  end.

(** [s] is a slice of the store [m] whose elements are [bs]. *)
Definition holds (m : Mem) (s : slice) (bs : bytes) : Prop :=
  exists a, heap m !! s_arr s = Some a /\
            s_off s + s_len s <= length a /\
            take (s_len s) (drop (s_off s) a) = bs.

(** The store as the program starts: [zerobase] is taken, and each prefix
    variable is a slice holding its declared byte. *)
Definition globals_declared (m : Mem) : Prop :=
  heap m !! zerobase = Some [] /\
  Forall2 (fun f p => holds m (f (globals m)) p)
    [ g_PublicKeyToUserMetadata; g_TstampNanosPostHash;
      g_PhoneNumberToPhoneNumberMetadata; g_ForVerifiedMap;
      g_TstampNanosPinnedPostHash; g_UsernameVerificationAuditLog;
      g_PublicKeyToGraylistState; g_PublicKeyToBlacklistState;
      g_UserPublicKeyContactPublicKeyToMostRecentReadTstampNanos ]
    declared_prefixes.

(** The arguments of a call as values: each slice with its elements, each
    hash pointer with the array it points to. *)
Inductive args_hold (m : Mem)
  : key_call slice loc -> key_call bytes bytes -> Prop :=
| ah_user pk v : holds m pk v ->
    args_hold m (CallPublicKeyToUserMetadata pk) (CallPublicKeyToUserMetadata v)
| ah_feed ts p v : heap m !! p = Some v ->
    args_hold m (CallTstampPostHash ts p) (CallTstampPostHash ts v)
| ah_pinned ts p v : heap m !! p = Some v ->
    args_hold m (CallTstampPinnedPostHash ts p) (CallTstampPinnedPostHash ts v)
| ah_phone_string s :
    args_hold m (CallPhoneNumberString s) (CallPhoneNumberString s)
| ah_phone_bytes b v : holds m b v ->
    args_hold m (CallPhoneNumberBytes b) (CallPhoneNumberBytes v)
| ah_audit u :
    args_hold m (CallUsernameVerificationAuditLogs u)
                (CallUsernameVerificationAuditLogs u)
| ah_gray pk v : holds m pk v ->
    args_hold m (CallGraylistedProfile pk) (CallGraylistedProfile v)
| ah_black pk v : holds m pk v ->
    args_hold m (CallBlacklistedProfile pk) (CallBlacklistedProfile v)
| ah_cursor u c vu vc : holds m u vu -> holds m c vc ->
    args_hold m (CallUserPkContactPk u c) (CallUserPkContactPk vu vc).

(** What a call leaves behind, from store [m] to store [m']: the prefix
    variables and every array of [m] are as they were, and a returned key is
    a slice of an array that [m] did not have, holding the key's bytes. *)
Definition leaves_intact (m m' : Mem) : Prop :=
  globals m' = globals m /\
  forall l, l ∈ dom (heap m) -> heap m' !! l = heap m !! l.

Definition freshly_allocated (m m' : Mem) (key : slice) (v : bytes) : Prop :=
  (s_arr key ∉ dom (heap m)) /\ holds m' key v.

End InMemory.

(** ** The local database

    badger, as the source uses it: a transaction reads with [txn.Get] and
    [item.ValueCopy], writes with [txn.Set] and [txn.Delete], and a write
    transaction is committed when its function returns nil.  The contents are
    a finite map; each call can also fail, as the engine decides: a closed
    store refuses a read transaction before its function runs, the empty key
    is refused by lookups and writes, a value may not be readable. *)

Inductive engine_error :=
| ErrKeyNotFound
| ErrEngine (msg : string).   (* any other failure: I/O, corruption, ... *)

Record DB := {
  db_kv : gmap bytes bytes;
  db_view_fault : option string;
  db_get_fault : bytes -> option string;
  db_copy_fault : bytes -> option string;
  db_set_fault : bytes -> bytes -> option string;
  db_delete_fault : bytes -> option string;
  db_commit_fault : option string
}.

Definition set_kv (kv : gmap bytes bytes) (db : DB) : DB :=
  {| db_kv := kv;
     db_view_fault := db_view_fault db;
     db_get_fault := db_get_fault db;
     db_copy_fault := db_copy_fault db;
     db_set_fault := db_set_fault db;
     db_delete_fault := db_delete_fault db;
     db_commit_fault := db_commit_fault db |}.

Record Item := { item_key : bytes; item_value : bytes }.

Definition txn_Get (txn : DB) (key : bytes) : Item + engine_error :=
  match db_get_fault txn key with
  | Some msg => inr (ErrEngine msg)
  | None =>
      match db_kv txn !! key with
      | Some v => inl {| item_key := key; item_value := v |}
      | None => inr ErrKeyNotFound
      end
  end.

Definition Item_ValueCopy (txn : DB) (item : Item) : result bytes :=
  match db_copy_fault txn (item_key item) with
  | Some msg => Err msg
  | None => Ok (item_value item)
  end.

Definition txn_Set (txn : DB) (key value : bytes) : DB * option string :=
  match db_set_fault txn key value with
  | Some msg => (txn, Some msg)
  | None => (set_kv (<[key := value]> (db_kv txn)) txn, None)
  end.

Definition txn_Delete (txn : DB) (key : bytes) : DB * option string :=
  match db_delete_fault txn key with
  | Some msg => (txn, Some msg)
  | None => (set_kv (delete key (db_kv txn)) txn, None)
  end.

(** [db.View(fn)]: the engine may refuse the transaction (the store is
    closed), and [fn] is then not run; otherwise [fn] on a read transaction.
    [A] is what the variables captured by [fn] hold afterwards, [init] what
    they hold before. *)
Definition DB_View {A} (db : DB) (init : A) (fn : DB -> A * option string)
    : A * option string :=
  match db_view_fault db with
  | Some err => (init, Some err)
  | None => fn db
  end.

(** [db.Update(fn)]: [fn] on a write transaction, committed when [fn] returns
    nil; on any error the database is as before. *)
Definition DB_Update (db : DB) (fn : DB -> DB * option string)
    : DB * option string :=
  let '(txn, err) := fn db in
  match err with
  | Some e => (db, Some e)
  | None =>
      match db_commit_fault db with
      | Some e => (db, Some e)
      | None => (txn, None)
      end
  end.

(** ** Requests, responses and the outside world *)

Record GlobalStatePutRemoteRequest := {
  Put_Key : bytes;
  Put_Value : bytes
}.
Record GlobalStateGetRemoteRequest := { Get_Key : bytes }.
Record GlobalStateGetRemoteResponse := { Get_Value : bytes }.
Record GlobalStateBatchGetRemoteRequest := { BatchGet_KeyList : list bytes }.
Record GlobalStateBatchGetRemoteResponse := { BatchGet_ValueList : list bytes }.
Record GlobalStateDeleteRemoteRequest := { Delete_Key : bytes }.
Record GlobalStateSeekRemoteRequest := {
  StartPrefix : bytes;
  ValidForPrefix : bytes;
  MaxKeyLen : Z;
  NumToFetch : Z;
  Reverse : bool;
  FetchValues : bool
}.
Record GlobalStateSeekRemoteResponse := {
  KeysFound : list bytes;
  ValsFound : list bytes
}.

Inductive request :=
| ReqPut (r : GlobalStatePutRemoteRequest)
| ReqGet (r : GlobalStateGetRemoteRequest)
| ReqBatchGet (r : GlobalStateBatchGetRemoteRequest)
| ReqDelete (r : GlobalStateDeleteRemoteRequest)
| ReqSeek (r : GlobalStateSeekRemoteRequest).

(** What [http.Post] returns: an error when the request could not be carried
    out, a response (with its status code and body) otherwise. *)
Inductive http_result :=
| HttpError (err : string)
| HttpResponse (StatusCode : Z) (Body : bytes).

(** The calls into encoding/json, net/http and the core library.  A decoder
    fills the response it is given and returns it with its error. *)
Class Externals := {
  json_Marshal : request -> result bytes;
  json_Decode_Get :
    bytes -> GlobalStateGetRemoteResponse ->
    GlobalStateGetRemoteResponse * option string;
  json_Decode_BatchGet :
    bytes -> GlobalStateBatchGetRemoteResponse ->
    GlobalStateBatchGetRemoteResponse * option string;
  json_Decode_Seek :
    bytes -> GlobalStateSeekRemoteResponse ->
    GlobalStateSeekRemoteResponse * option string;
  http_Post : string -> string -> bytes -> http_result;
  DBGetPaginatedKeysAndValuesForPrefix :
    DB -> bytes -> bytes -> Z -> Z -> bool -> bool ->
    result (list bytes * list bytes)
}.

Definition GlobalStateSharedSecretParam : string := "shared_secret".
Definition RoutePathGlobalStatePutRemote : string := "/api/v1/global-state/put".
Definition RoutePathGlobalStateGetRemote : string := "/api/v1/global-state/get".
Definition RoutePathGlobalStateBatchGetRemote : string :=
  "/api/v1/global-state/batch-get".
Definition RoutePathGlobalStateDeleteRemote : string :=
  "/api/v1/global-state/delete".
Definition RoutePathGlobalStateSeekRemote : string := "/api/v1/global-state/seek".

(** The fields of [APIServer] that this file reads.  [GlobalStateDB] is a
    pointer in the source; the database it points to is part of the world
    below. *)
Record APIServer := {
  GlobalStateRemoteNode : string;
  GlobalStateRemoteNodeSharedSecret : string
}.

(** A call that leaves the process or reaches the database. *)
Inductive event :=
| EvHttpPost (url contentType : string) (body : bytes)
| EvDBView
| EvDBUpdate
| EvDBSeek.

Record World := {
  GlobalStateDB : DB;
  calls : list event   (* oldest first *)
}.

Definition W (A : Type) : Type := World -> A * World.

Definition wret {A} (a : A) : W A := fun w => (a, w).

Definition wbind {A B} (c : W A) (k : A -> W B) : W B :=
  fun w => let '(a, w') := c w in k a w'.

Notation "'do' x <- c ;; k" := (wbind c (fun x => k))
  (at level 10, x name, c at level 99, k at level 200).

Definition log (e : event) : W unit :=
  fun w => (tt, {| GlobalStateDB := GlobalStateDB w; calls := calls w ++ [e] |}).

Definition post `{Externals} (url contentType : string) (body : bytes)
    : W http_result :=
  do _ <- log (EvHttpPost url contentType body) ;;
  wret (http_Post url contentType body).

Definition view {A} (init : A) (fn : DB -> A * option string)
    : W (A * option string) :=
  do _ <- log EvDBView ;;
  fun w => (DB_View (GlobalStateDB w) init fn, w).

Definition update (fn : DB -> DB * option string) : W (option string) :=
  do _ <- log EvDBUpdate ;;
  fun w =>
    let '(db', err) := DB_Update (GlobalStateDB w) fn in
    (err, {| GlobalStateDB := db'; calls := calls w |}).

Definition seek `{Externals} (startPrefix validForPrefix : bytes)
    (maxKeyLen numToFetch : Z) (reverse fetchValues : bool)
    : W (result (list bytes * list bytes)) :=
  do _ <- log EvDBSeek ;;
  fun w =>
    (DBGetPaginatedKeysAndValuesForPrefix (GlobalStateDB w) startPrefix
       validForPrefix maxKeyLen numToFetch reverse fetchValues, w).

(** [fmt.Sprintf("%s%s?%s=%s", node, route, param, secret)] *)
Definition remote_url (fes : APIServer) (route : string) : string :=
  GlobalStateRemoteNode fes +:+ route +:+ "?" +:+
  GlobalStateSharedSecretParam +:+ "=" +:+
  GlobalStateRemoteNodeSharedSecret fes.

(** [fes.GlobalStateRemoteNode != ""] *)
Definition has_remote_node (fes : APIServer) : bool :=
  negb (String.eqb (GlobalStateRemoteNode fes) "").

(** ** The five primitives (lines 301-756) *)

Definition CreateGlobalStatePutRequest `{Externals} (fes : APIServer)
    (key value : bytes) : result (string * bytes) :=
  let req := {| Put_Key := key; Put_Value := value |} in
  match json_Marshal (ReqPut req) with
  | Err err => Err ("GlobalStatePut: Could not marshal JSON: " +:+ err)
  | Ok json_data => Ok (remote_url fes RoutePathGlobalStatePutRemote, json_data)
  end.

Definition GlobalStatePut `{Externals} (fes : APIServer) (key value : bytes)
    : W (option string) :=
  if has_remote_node fes then
    match CreateGlobalStatePutRequest fes key value with
    | Err err =>
        wret (Some ("GlobalStatePut: Error constructing request: " +:+ err))
    | Ok (url, json_data) =>
        do res <- post url "application/json" json_data ;;
        match res with
        | HttpError _ =>
            wret (Some "GlobalStatePut: Error processing remote request")
        | HttpResponse _ _ => wret None
        end
    end
  else
    update (fun txn => txn_Set txn key value).

Definition CreateGlobalStateGetRequest `{Externals} (fes : APIServer)
    (key : bytes) : result (string * bytes) :=
  let req := {| Get_Key := key |} in
  match json_Marshal (ReqGet req) with
  | Err err => Err ("GlobalStateGet: Could not marshal JSON: " +:+ err)
  | Ok json_data => Ok (remote_url fes RoutePathGlobalStateGetRemote, json_data)
  end.

Definition GlobalStateGet `{Externals} (fes : APIServer) (key : bytes)
    : W (result bytes) :=
  if has_remote_node fes then
    match CreateGlobalStateGetRequest fes key with
    | Err err =>
        wret (Err ("GlobalStateGet: Error constructing request: " +:+ err))
    | Ok (url, json_data) =>
        do resReturned <- post url "application/json" json_data ;;
        match resReturned with
        | HttpError _ =>
            wret (Err "GlobalStateGet: Error processing remote request")
        | HttpResponse _ body =>
            let res := {| Get_Value := [] |} in
            let '(res, _) := json_Decode_Get body res in
            wret (Ok (Get_Value res))
        end
    end
  else
    let retValue : bytes := [] in
    do r <- view retValue (fun txn =>
              match txn_Get txn key with
              | inr _ => (retValue, None)
              | inl item =>
                  match Item_ValueCopy txn item with
                  | Err err => ([], Some err)
                  | Ok v => (v, None)
                  end
              end) ;;
    let '(retValue, err) := r in
    match err with
    | Some err =>
        wret (Err ("GlobalStateGet: Error copying value into new slice: "
                   +:+ err))
    | None => wret (Ok retValue)
    end.

Definition CreateGlobalStateBatchGetRequest `{Externals} (fes : APIServer)
    (keyList : list bytes) : result (string * bytes) :=
  let req := {| BatchGet_KeyList := keyList |} in
  match json_Marshal (ReqBatchGet req) with
  | Err err => Err ("GlobalStateBatchGet: Could not marshal JSON: " +:+ err)
  | Ok json_data =>
      Ok (remote_url fes RoutePathGlobalStateBatchGetRemote, json_data)
  end.

(** The loop of [GlobalStateBatchGet] inside the read transaction:
    [retValueList] is the captured variable, returned with the function's
    error. *)
Fixpoint batch_get_loop (txn : DB) (keyList : list bytes)
    (retValueList : list bytes) : list bytes * option string :=
  match keyList with
  | [] => (retValueList, None)
  | key :: rest =>
      match txn_Get txn key with
      | inr _ => batch_get_loop txn rest (retValueList ++ [[]])
      | inl item =>
          match Item_ValueCopy txn item with
          | Err err => (retValueList, Some err)
          | Ok value => batch_get_loop txn rest (retValueList ++ [value])
          end
      end
  end.

Definition GlobalStateBatchGet `{Externals} (fes : APIServer)
    (keyList : list bytes) : W (result (list bytes)) :=
  if has_remote_node fes then
    match CreateGlobalStateBatchGetRequest fes keyList with
    | Err err =>
        wret (Err ("GlobalStateBatchGet: Error constructing request: " +:+ err))
    | Ok (url, json_data) =>
        do resReturned <- post url "application/json" json_data ;;
        match resReturned with
        | HttpError _ =>
            wret (Err "GlobalStateBatchGet: Error processing remote request")
        | HttpResponse _ body =>
            let res := {| BatchGet_ValueList := [] |} in
            let '(res, _) := json_Decode_BatchGet body res in
            wret (Ok (BatchGet_ValueList res))
        end
    end
  else
    let retValueList : list bytes := [] in
    do r <- view retValueList
              (fun txn => batch_get_loop txn keyList retValueList) ;;
    let '(retValueList, err) := r in
    match err with
    | Some err =>
        wret (Err ("GlobalStateBatchGet: Error copying value into new slice: "
                   +:+ err))
    | None => wret (Ok retValueList)
    end.

Definition CreateGlobalStateDeleteRequest `{Externals} (fes : APIServer)
    (key : bytes) : result (string * bytes) :=
  let req := {| Delete_Key := key |} in
  match json_Marshal (ReqDelete req) with
  | Err err => Err ("GlobalStateDelete: Could not marshal JSON: " +:+ err)
  | Ok json_data =>
      Ok (remote_url fes RoutePathGlobalStateDeleteRemote, json_data)
  end.

Definition GlobalStateDelete `{Externals} (fes : APIServer) (key : bytes)
    : W (option string) :=
  if has_remote_node fes then
    match CreateGlobalStateDeleteRequest fes key with
    | Err err =>
        wret (Some ("GlobalStateDelete: Could not construct request: " +:+ err))
    | Ok (url, json_data) =>
        do res <- post url "application/json" json_data ;;
        match res with
        | HttpError _ =>
            wret (Some "GlobalStateDelete: Error processing remote request")
        | HttpResponse _ _ => wret None
        end
    end
  else
    update (fun txn => txn_Delete txn key).

Definition CreateGlobalStateSeekRequest `{Externals} (fes : APIServer)
    (startPrefix validForPrefix : bytes) (maxKeyLen numToFetch : Z)
    (reverse fetchValues : bool) : result (string * bytes) :=
  let req := {| StartPrefix := startPrefix;
                ValidForPrefix := validForPrefix;
                MaxKeyLen := maxKeyLen;
                NumToFetch := numToFetch;
                Reverse := reverse;
                FetchValues := fetchValues |} in
  match json_Marshal (ReqSeek req) with
  | Err err => Err ("GlobalStateSeek: Could not marshal JSON: " +:+ err)
  | Ok json_data =>
      Ok (remote_url fes RoutePathGlobalStateSeekRemote, json_data)
  end.

Definition GlobalStateSeek `{Externals} (fes : APIServer)
    (startPrefix validForPrefix : bytes) (maxKeyLen numToFetch : Z)
    (reverse fetchValues : bool) : W (result (list bytes * list bytes)) :=
  if has_remote_node fes then
    match CreateGlobalStateSeekRequest fes startPrefix validForPrefix
            maxKeyLen numToFetch reverse fetchValues with
    | Err err =>
        wret (Err ("GlobalStateSeek: Error constructing request: " +:+ err))
    | Ok (url, json_data) =>
        do resReturned <- post url "application/json" json_data ;;
        match resReturned with
        | HttpError _ =>
            wret (Err "GlobalStateSeek: Error processing remote request")
        | HttpResponse _ body =>
            let res := {| KeysFound := []; ValsFound := [] |} in
            let '(res, _) := json_Decode_Seek body res in
            wret (Ok (KeysFound res, ValsFound res))
        end
    end
  else
    do r <- seek startPrefix validForPrefix maxKeyLen numToFetch reverse
              fetchValues ;;
    match r with
    | Err err =>
        wret (Err ("GlobalStateSeek: Error getting paginated keys and values: "
                   +:+ err))
    | Ok (retKeys, retVals) => wret (Ok (retKeys, retVals))
    end.

(** ** The primitives as one family *)

Inductive primitive :=
| PrimPut (key value : bytes)
| PrimGet (key : bytes)
| PrimBatchGet (keyList : list bytes)
| PrimDelete (key : bytes)
| PrimSeek (startPrefix validForPrefix : bytes) (maxKeyLen numToFetch : Z)
           (reverse fetchValues : bool).

Inductive outcome :=
| OutError (err : option string)
| OutValue (r : result bytes)
| OutValueList (r : result (list bytes))
| OutKeysVals (r : result (list bytes * list bytes)).

(** The error a primitive returned, if any. *)
Definition outcome_error (o : outcome) : option string :=
  match o with
  | OutError err => err
  | OutValue (Err e) | OutValueList (Err e) | OutKeysVals (Err e) => Some e
  | OutValue (Ok _) | OutValueList (Ok _) | OutKeysVals (Ok _) => None
  end.

Definition run_primitive `{Externals} (fes : APIServer) (p : primitive)
    : W outcome :=
  match p with
  | PrimPut key value =>
      do r <- GlobalStatePut fes key value ;; wret (OutError r)
  | PrimGet key => do r <- GlobalStateGet fes key ;; wret (OutValue r)
  | PrimBatchGet keyList =>
      do r <- GlobalStateBatchGet fes keyList ;; wret (OutValueList r)
  | PrimDelete key => do r <- GlobalStateDelete fes key ;; wret (OutError r)
  | PrimSeek sp vp mk n rev fv =>
      do r <- GlobalStateSeek fes sp vp mk n rev fv ;; wret (OutKeysVals r)
  end.

Definition primitive_name (p : primitive) : string :=
  match p with
  | PrimPut _ _ => "GlobalStatePut"
  | PrimGet _ => "GlobalStateGet"
  | PrimBatchGet _ => "GlobalStateBatchGet"
  | PrimDelete _ => "GlobalStateDelete"
  | PrimSeek _ _ _ _ _ _ => "GlobalStateSeek"
  end.

(** The request a primitive sends to the remote node. *)
Definition create_request `{Externals} (fes : APIServer) (p : primitive)
    : result (string * bytes) :=
  match p with
  | PrimPut key value => CreateGlobalStatePutRequest fes key value
  | PrimGet key => CreateGlobalStateGetRequest fes key
  | PrimBatchGet keyList => CreateGlobalStateBatchGetRequest fes keyList
  | PrimDelete key => CreateGlobalStateDeleteRequest fes key
  | PrimSeek sp vp mk n rev fv =>
      CreateGlobalStateSeekRequest fes sp vp mk n rev fv
  end.




(** ** Concrete instances, to run the definitions on *)

(** The outside world with a fixed answer to every HTTP request; JSON
    marshals to the empty body and decodes to the response it is given. *)
Definition fixed_externals (answer : http_result) : Externals :=
  {| json_Marshal := fun _ => Ok [];
     json_Decode_Get := fun _ r => (r, None);
     json_Decode_BatchGet := fun _ r => (r, None);
     json_Decode_Seek := fun _ r => (r, None);
     http_Post := fun _ _ _ => answer;
     DBGetPaginatedKeysAndValuesForPrefix :=
       fun _ _ _ _ _ _ _ => Ok ([], []) |}.

(** A database that never fails. *)
Definition healthy_db (kv : gmap bytes bytes) : DB :=
  {| db_kv := kv;
     db_view_fault := None;
     db_get_fault := fun _ => None;
     db_copy_fault := fun _ => None;
     db_set_fault := fun _ _ => None;
     db_delete_fault := fun _ => None;
     db_commit_fault := None |}.

(** A database whose lookups all fail with [msg]. *)
Definition unreadable_db (kv : gmap bytes bytes) (msg : string) : DB :=
  {| db_kv := kv;
     db_view_fault := None;
     db_get_fault := fun _ => Some msg;
     db_copy_fault := fun _ => None;
     db_set_fault := fun _ _ => None;
     db_delete_fault := fun _ => None;
     db_commit_fault := None |}.

(** A database that finds every stored key and cannot copy the value of
    [bad]. *)
Definition uncopyable_db (kv : gmap bytes bytes) (bad : bytes) (msg : string)
    : DB :=
  {| db_kv := kv;
     db_view_fault := None;
     db_get_fault := fun _ => None;
     db_copy_fault := fun k => if decide (k = bad) then Some msg else None;
     db_set_fault := fun _ _ => None;
     db_delete_fault := fun _ => None;
     db_commit_fault := None |}.

(** A closed database: no read transaction runs, and no write is made. *)
Definition closed_db (kv : gmap bytes bytes) (msg : string) : DB :=
  {| db_kv := kv;
     db_view_fault := Some msg;
     db_get_fault := fun _ => None;
     db_copy_fault := fun _ => None;
     db_set_fault := fun _ _ => Some msg;
     db_delete_fault := fun _ => Some msg;
     db_commit_fault := Some msg |}.

(** A database that refuses the empty key in lookups and writes, as badger
    does, and serves every other call. *)
Definition ErrEmptyKey : string := "Key cannot be empty".

Definition refuse_empty_key (key : bytes) : option string :=
  match key with
  | [] => Some ErrEmptyKey
  | _ :: _ => None
  end.

Definition badger_db (kv : gmap bytes bytes) : DB :=
  {| db_kv := kv;
     db_view_fault := None;
     db_get_fault := refuse_empty_key;
     db_copy_fault := fun _ => None;
     db_set_fault := fun key _ => refuse_empty_key key;
     db_delete_fault := refuse_empty_key;
     db_commit_fault := None |}.

Definition world_of (db : DB) : World := {| GlobalStateDB := db; calls := [] |}.

Definition local_server : APIServer :=
  {| GlobalStateRemoteNode := ""; GlobalStateRemoteNodeSharedSecret := "" |}.

Definition proxy_server : APIServer :=
  {| GlobalStateRemoteNode := "https://owner.example";
     GlobalStateRemoteNodeSharedSecret := "s3cret" |}.

Definition key012 : bytes := [x00; x01; x02].
Definition key999 : bytes := [x09; x09; x09].
Definition value_x : bytes := bytes_of_string "x".

(** ** Conditions on the engine *)

(** The engine carries out a write of [value] at [key], a delete of [key] and
    a read of [key] without failing. *)
Definition engine_serves (db : DB) (key value : bytes) : Prop :=
  db_view_fault db = None /\
  db_set_fault db key value = None /\
  db_delete_fault db key = None /\
  db_commit_fault db = None /\
  db_get_fault db key = None /\
  db_copy_fault db key = None.

(** The read transaction runs, and no lookup and no value copy fails for a
    key of [keyList]. *)
Definition engine_reads (db : DB) (keyList : list bytes) : Prop :=
  db_view_fault db = None /\
  Forall (fun key => db_get_fault db key = None /\ db_copy_fault db key = None)
         keyList.

(** ** Readings of a run *)

(** What the read transaction of [GlobalStateGet] computes when it runs. *)
Definition get_in_txn (txn : DB) (key : bytes) : result bytes :=
  match txn_Get txn key with
  | inr _ => Ok []
  | inl item =>
      match Item_ValueCopy txn item with
      | Err err =>
          Err ("GlobalStateGet: Error copying value into new slice: " +:+ err)
      | Ok v => Ok v
      end
  end.

(** What [GlobalStateGet] returns on the local path: the error of a refused
    transaction, or the reading of the transaction. *)
Definition get_local (db : DB) (key : bytes) : result bytes :=
  match db_view_fault db with
  | Some err =>
      Err ("GlobalStateGet: Error copying value into new slice: " +:+ err)
  | None => get_in_txn db key
  end.

(** What [GlobalStateBatchGet] returns on the local path. *)
Definition batch_get_local (db : DB) (keyList : list bytes)
    : result (list bytes) :=
  match DB_View db [] (fun txn => batch_get_loop txn keyList []) with
  | (_, Some err) =>
      Err ("GlobalStateBatchGet: Error copying value into new slice: " +:+ err)
  | (retValueList, None) => Ok retValueList
  end.




(** The route a primitive posts to. *)
Definition route_of (p : primitive) : string :=
  match p with
  | PrimPut _ _ => RoutePathGlobalStatePutRemote
  | PrimGet _ => RoutePathGlobalStateGetRemote
  | PrimBatchGet _ => RoutePathGlobalStateBatchGetRemote
  | PrimDelete _ => RoutePathGlobalStateDeleteRemote
  | PrimSeek _ _ _ _ _ _ => RoutePathGlobalStateSeekRemote
  end.


(** ** Four claims of the spec, as it words them *)

(** C1 as the spec has it: the round trip for every key, value and store
    state, with no error. *)
Definition round_trip_on_every_store : Prop :=
  forall (E : Externals) (fes : APIServer) (w : World) (key value : bytes),
    GlobalStateRemoteNode fes = "" ->
    fst (GlobalStatePut fes key value w) = None /\
    fst (GlobalStateGet fes key (snd (GlobalStatePut fes key value w)))
      = Ok value /\
    fst (GlobalStateDelete fes key w) = None /\
    fst (GlobalStateGet fes key (snd (GlobalStateDelete fes key w))) = Ok [].

(** C2 as the spec has it: entries are empty exactly where the key is
    absent. *)
Definition batch_get_empty_exactly_when_absent : Prop :=
  forall (E : Externals) (fes : APIServer) (w : World) (keyList : list bytes),
    GlobalStateRemoteNode fes = "" ->
    engine_reads (GlobalStateDB w) keyList ->
    exists valueList,
      fst (GlobalStateBatchGet fes keyList w) = Ok valueList /\
      length valueList = length keyList /\
      forall i key, keyList !! i = Some key ->
        (forall v, db_kv (GlobalStateDB w) !! key = Some v ->
                   valueList !! i = Some v) /\
        (valueList !! i = Some [] <-> db_kv (GlobalStateDB w) !! key = None).

(** C4 as the spec has it: a lookup that fails with anything but
    key-not-found makes [GlobalStateGet] return an error. *)
Definition lookup_failure_is_reported : Prop :=
  forall (E : Externals) (fes : APIServer) (w : World) (key : bytes)
         (msg : string),
    GlobalStateRemoteNode fes = "" ->
    txn_Get (GlobalStateDB w) key = inr (ErrEngine msg) ->
    exists e, fst (GlobalStateGet fes key w) = Err e.

(** C5 as the spec has it: on the remote path a transport error and a
    response with a status outside 200..299 both make the primitive return
    an error. *)
Definition remote_failure_is_reported : Prop :=
  forall (E : Externals) (fes : APIServer) (p : primitive) (w : World)
         (url : string) (json_data : bytes),
    GlobalStateRemoteNode fes <> "" ->
    create_request fes p = Ok (url, json_data) ->
    (forall err,
       http_Post url "application/json" json_data = HttpError err ->
       exists e, outcome_error (fst (run_primitive fes p w)) = Some e) /\
    (forall status body,
       http_Post url "application/json" json_data = HttpResponse status body ->
       (status < 200 \/ 300 <= status)%Z ->
       exists e, outcome_error (fst (run_primitive fes p w)) = Some e).

(** ** Ownership of a key under construction *)

(** [key] is a slice that the call owns: its array is not one of [m0], and
    the array has room for the slice's capacity. *)
Definition owned (m0 m : InMemory.Mem) (key : InMemory.slice) (v : bytes)
    : Prop :=
  (InMemory.s_arr key ∉ dom (InMemory.heap m0)) /\
  exists a,
    InMemory.heap m !! InMemory.s_arr key = Some a /\
    InMemory.s_off key + InMemory.s_cap key <= length a /\
    InMemory.s_len key <= InMemory.s_cap key /\
    take (InMemory.s_len key) (drop (InMemory.s_off key) a) = v.

(** [c], run in [m], returns a key holding [v] that the call owns, and leaves
    the arrays of [m0] as they were. *)
Definition builds (m0 m : InMemory.Mem) (c : InMemory.M InMemory.slice)
    (v : bytes) : Prop :=
  exists key m',
    c m = Some (key, m') /\ InMemory.leaves_intact m0 m' /\ owned m0 m' key v.

(** ** More concrete instances *)

(** A phone number library for running the definitions: a number is written
    with a leading [+]; its digits are the number, and E.164 writes [+] and
    the digits. *)
Definition is_digit (c : ascii) : bool :=
  ((48 <=? nat_of_ascii c) && (nat_of_ascii c <=? 57))%nat.

Fixpoint digits_of (s : string) : string :=
  match s with
  | EmptyString => EmptyString
  | String c s' => if is_digit c then String c (digits_of s') else digits_of s'
  end.

Definition digits_phone_lib : PhoneLib :=
  {| PhoneNumber := string;
     phonenumbers_Parse := fun s _ =>
       match s with
       | String "+" rest => Ok (digits_of rest)
       | _ => Err "invalid country code"
       end;
     phonenumbers_Format := fun n _ => "+" +:+ n |}.


(** Case tables that map every rune above [MaxASCII] to itself. *)
Definition no_unicode_lib : UnicodeLib := {| unicode_To_LowerCase := fun r => r |}.

(** A runtime that doubles the capacity when that is enough. *)
Definition doubling_runtime : InMemory.GoRuntime :=
  {| InMemory.growslice_cap := fun oldcap needed => Nat.max needed (2 * oldcap);
     InMemory.growslice_cap_ge :=
       fun oldcap needed => Nat.le_max_l needed (2 * oldcap) |}.

(** A store as the program starts: the nine prefix arrays at addresses 1 to
    9, and a public key at address 10. *)
Definition prefix_slice (l : InMemory.loc) : InMemory.slice :=
  InMemory.Slice l 0 1 1.

Definition start_store : InMemory.Mem :=
  {| InMemory.heap :=
       list_to_map
         [ (0, []); (1, [x00]); (2, [x01]); (3, [x02]); (4, [x03]);
           (5, [x04]); (6, [x05]); (7, [x06]); (8, [x07]); (9, [x08]);
           (10, key012) ];
     InMemory.globals :=
       {| InMemory.g_PublicKeyToUserMetadata := prefix_slice 1;
          InMemory.g_TstampNanosPostHash := prefix_slice 2;
          InMemory.g_PhoneNumberToPhoneNumberMetadata := prefix_slice 3;
          InMemory.g_ForVerifiedMap := prefix_slice 4;
          InMemory.g_TstampNanosPinnedPostHash := prefix_slice 5;
          InMemory.g_UsernameVerificationAuditLog := prefix_slice 6;
          InMemory.g_PublicKeyToGraylistState := prefix_slice 7;
          InMemory.g_PublicKeyToBlacklistState := prefix_slice 8;
          InMemory.g_UserPublicKeyContactPublicKeyToMostRecentReadTstampNanos :=
            prefix_slice 9 |} |}.

Definition public_key_slice : InMemory.slice := InMemory.Slice 10 0 3 3.

(** ** The request handlers (lines 277-299, 360-385, 461-486, 584-606,
    677-710)

    A handler reads the request body through [io.LimitReader], decodes it,
    calls the primitive and encodes the result; what it writes to the
    [http.ResponseWriter] is returned as a list, first write first. *)

Record GlobalStatePutRemoteResponse := {}.
Record GlobalStateDeleteRemoteResponse := {}.

Inductive response :=
| RespPut (r : GlobalStatePutRemoteResponse)
| RespGet (r : GlobalStateGetRemoteResponse)
| RespBatchGet (r : GlobalStateBatchGetRemoteResponse)
| RespDelete (r : GlobalStateDeleteRemoteResponse)
| RespSeek (r : GlobalStateSeekRemoteResponse).

(** The calls of the handlers into encoding/json, and the size limit of a
    request body, a constant declared elsewhere in the package.  A decoder
    fills the request it is given and returns it with its error; the encoder
    returns what it wrote and its error. *)
Class HandlerExternals := {
  MaxRequestBodySizeBytes : nat;
  json_Decode_PutRequest :
    bytes -> GlobalStatePutRemoteRequest ->
    GlobalStatePutRemoteRequest * option string;
  json_Decode_GetRequest :
    bytes -> GlobalStateGetRemoteRequest ->
    GlobalStateGetRemoteRequest * option string;
  json_Decode_BatchGetRequest :
    bytes -> GlobalStateBatchGetRemoteRequest ->
    GlobalStateBatchGetRemoteRequest * option string;
  json_Decode_DeleteRequest :
    bytes -> GlobalStateDeleteRemoteRequest ->
    GlobalStateDeleteRemoteRequest * option string;
  json_Decode_SeekRequest :
    bytes -> GlobalStateSeekRemoteRequest ->
    GlobalStateSeekRemoteRequest * option string;
  json_Encode : response -> bytes * option string
}.

Inductive response_write :=
| WriteBody (body : bytes)
| WriteBadRequest (errorString : string).

(** Modelled from the spec: [_AddBadRequestError] is defined in another file
    of the package.  The spec has a failed decode, operation or encode yield
    a client-error response with a descriptive message; the write is recorded
    with the message it is given. *)
Definition _AddBadRequestError (errorString : string) : list response_write :=
  [WriteBadRequest errorString].

(** [json.NewEncoder(ww).Encode(res)] followed by the handler's check of its
    error. *)
Definition encode_response `{HandlerExternals} (handlerName : string)
    (res : response) : list response_write :=
  match json_Encode res with
  | (written, Some err) =>
      WriteBody written ::
      _AddBadRequestError
        (handlerName +:+ ": Problem encoding response as JSON: " +:+ err)
  | (written, None) => [WriteBody written]
  end.

Definition GlobalStatePutRemote `{Externals} `{HandlerExternals}
    (fes : APIServer) (body : bytes) : W (list response_write) :=
  let requestData := {| Put_Key := []; Put_Value := [] |} in
  match json_Decode_PutRequest (take MaxRequestBodySizeBytes body)
          requestData with
  | (_, Some err) =>
      wret (_AddBadRequestError
              ("GlobalStatePutRemote: Problem parsing request body: " +:+ err))
  | (requestData, None) =>
      do err <- GlobalStatePut fes (Put_Key requestData)
                  (Put_Value requestData) ;;
      match err with
      | Some err =>
          wret (_AddBadRequestError
                  ("GlobalStatePutRemote: Error processing GlobalStatePut: "
                   +:+ err))
      | None =>
          wret (encode_response "GlobalStatePutRemote"
                  (RespPut Build_GlobalStatePutRemoteResponse))
      end
  end.

Definition GlobalStateGetRemote `{Externals} `{HandlerExternals}
    (fes : APIServer) (body : bytes) : W (list response_write) :=
  let requestData := {| Get_Key := [] |} in
  match json_Decode_GetRequest (take MaxRequestBodySizeBytes body)
          requestData with
  | (_, Some err) =>
      wret (_AddBadRequestError
              ("GlobalStateGetRemote: Problem parsing request body: " +:+ err))
  | (requestData, None) =>
      do r <- GlobalStateGet fes (Get_Key requestData) ;;
      match r with
      | Err err =>
          wret (_AddBadRequestError
                  ("GlobalStateGetRemote: Error processing GlobalStateGet: "
                   +:+ err))
      | Ok val =>
          wret (encode_response "GlobalStateGetRemote"
                  (RespGet {| Get_Value := val |}))
      end
  end.

Definition GlobalStateBatchGetRemote `{Externals} `{HandlerExternals}
    (fes : APIServer) (body : bytes) : W (list response_write) :=
  let requestData := {| BatchGet_KeyList := [] |} in
  match json_Decode_BatchGetRequest (take MaxRequestBodySizeBytes body)
          requestData with
  | (_, Some err) =>
      wret (_AddBadRequestError
              ("GlobalStateBatchGetRemote: Problem parsing request body: "
               +:+ err))
  | (requestData, None) =>
      do r <- GlobalStateBatchGet fes (BatchGet_KeyList requestData) ;;
      match r with
      | Err err =>
          wret (_AddBadRequestError
                  ("GlobalStateBatchGetRemote: Error processing GlobalStateBatchGet: "
                   +:+ err))
      | Ok values =>
          wret (encode_response "GlobalStateBatchGetRemote"
                  (RespBatchGet {| BatchGet_ValueList := values |}))
      end
  end.

Definition GlobalStateDeleteRemote `{Externals} `{HandlerExternals}
    (fes : APIServer) (body : bytes) : W (list response_write) :=
  let requestData := {| Delete_Key := [] |} in
  match json_Decode_DeleteRequest (take MaxRequestBodySizeBytes body)
          requestData with
  | (_, Some err) =>
      wret (_AddBadRequestError
              ("GlobalStateDeleteRemote: Problem parsing request body: "
               +:+ err))
  | (requestData, None) =>
      do err <- GlobalStateDelete fes (Delete_Key requestData) ;;
      match err with
      | Some err =>
          wret (_AddBadRequestError
                  ("GlobalStateDeleteRemote: Error processing GlobalStateDelete: "
                   +:+ err))
      | None =>
          wret (encode_response "GlobalStateDeleteRemote"
                  (RespDelete Build_GlobalStateDeleteRemoteResponse))
      end
  end.

Definition GlobalStateSeekRemote `{Externals} `{HandlerExternals}
    (fes : APIServer) (body : bytes) : W (list response_write) :=
  let requestData :=
    {| StartPrefix := []; ValidForPrefix := []; MaxKeyLen := 0;
       NumToFetch := 0; Reverse := false; FetchValues := false |} in
  match json_Decode_SeekRequest (take MaxRequestBodySizeBytes body)
          requestData with
  | (_, Some err) =>
      wret (_AddBadRequestError
              ("GlobalStateSeekRemote: Problem parsing request body: " +:+ err))
  | (requestData, None) =>
      do r <- GlobalStateSeek fes (StartPrefix requestData)
                (ValidForPrefix requestData) (MaxKeyLen requestData)
                (NumToFetch requestData) (Reverse requestData)
                (FetchValues requestData) ;;
      match r with
      | Err err =>
          wret (_AddBadRequestError
                  ("GlobalStateSeekRemote: Error processing GlobalStateSeek: "
                   +:+ err))
      | Ok (keys, values) =>
          wret (encode_response "GlobalStateSeekRemote"
                  (RespSeek {| KeysFound := keys; ValsFound := values |}))
      end
  end.

(** ** The routes (lines 29-69)

    [Route] is declared in another file of the package; its fields are read
    off the literals: a name, the methods, the path, the handler, and whether
    the shared secret is checked. *)
Record Route := {
  Name : string;
  Method : list string;
  Pattern : string;
  HandlerFunc : bytes -> W (list response_write);
  CheckSecret : bool
}.

Definition GlobalStateRoutes `{Externals} `{HandlerExternals}
    (fes : APIServer) : list Route :=
  [ {| Name := "GlobalStatePutRemote";
       Method := ["POST"; "OPTIONS"];
       Pattern := RoutePathGlobalStatePutRemote;
       HandlerFunc := GlobalStatePutRemote fes;
       CheckSecret := true |};
    {| Name := "GlobalStateGetRemote";
       Method := ["POST"; "OPTIONS"];
       Pattern := RoutePathGlobalStateGetRemote;
       HandlerFunc := GlobalStateGetRemote fes;
       CheckSecret := true |};
    {| Name := "GlobalStateBatchGetRemote";
       Method := ["POST"; "OPTIONS"];
       Pattern := RoutePathGlobalStateBatchGetRemote;
       HandlerFunc := GlobalStateBatchGetRemote fes;
       CheckSecret := true |};
    {| Name := "GlobalStateDeleteRemote";
       Method := ["POST"; "OPTIONS"];
       Pattern := RoutePathGlobalStateDeleteRemote;
       HandlerFunc := GlobalStateDeleteRemote fes;
       CheckSecret := true |};
    {| Name := "GlobalStateSeekRemote";
       Method := ["POST"; "OPTIONS"];
       Pattern := RoutePathGlobalStateSeekRemote;
       HandlerFunc := GlobalStateSeekRemote fes;
       CheckSecret := true |} ].

(** ** The handlers as one family *)

(** The handler that serves a primitive. *)
Definition handler_of `{Externals} `{HandlerExternals} (fes : APIServer)
    (p : primitive) : bytes -> W (list response_write) :=
  match p with
  | PrimPut _ _ => GlobalStatePutRemote fes
  | PrimGet _ => GlobalStateGetRemote fes
  | PrimBatchGet _ => GlobalStateBatchGetRemote fes
  | PrimDelete _ => GlobalStateDeleteRemote fes
  | PrimSeek _ _ _ _ _ _ => GlobalStateSeekRemote fes
  end.

Definition handler_name (p : primitive) : string :=
  primitive_name p +:+ "Remote".

(** The request a primitive is sent as, and the primitive a request asks
    for. *)
Definition request_of (p : primitive) : request :=
  match p with
  | PrimPut key value => ReqPut {| Put_Key := key; Put_Value := value |}
  | PrimGet key => ReqGet {| Get_Key := key |}
  | PrimBatchGet keyList => ReqBatchGet {| BatchGet_KeyList := keyList |}
  | PrimDelete key => ReqDelete {| Delete_Key := key |}
  | PrimSeek sp vp mk n rev fv =>
      ReqSeek {| StartPrefix := sp; ValidForPrefix := vp; MaxKeyLen := mk;
                 NumToFetch := n; Reverse := rev; FetchValues := fv |}
  end.

Definition primitive_of (r : request) : primitive :=
  match r with
  | ReqPut r => PrimPut (Put_Key r) (Put_Value r)
  | ReqGet r => PrimGet (Get_Key r)
  | ReqBatchGet r => PrimBatchGet (BatchGet_KeyList r)
  | ReqDelete r => PrimDelete (Delete_Key r)
  | ReqSeek r =>
      PrimSeek (StartPrefix r) (ValidForPrefix r) (MaxKeyLen r) (NumToFetch r)
               (Reverse r) (FetchValues r)
  end.

(** What the handler of [p] decodes from a body: the request, as its decoder
    fills the zero request, and the decoder's error. *)
Definition decode_request `{HandlerExternals} (p : primitive) (body : bytes)
    : request * option string :=
  match p with
  | PrimPut _ _ =>
      let '(r, e) := json_Decode_PutRequest body
                       {| Put_Key := []; Put_Value := [] |} in (ReqPut r, e)
  | PrimGet _ =>
      let '(r, e) := json_Decode_GetRequest body {| Get_Key := [] |} in
      (ReqGet r, e)
  | PrimBatchGet _ =>
      let '(r, e) := json_Decode_BatchGetRequest body
                       {| BatchGet_KeyList := [] |} in (ReqBatchGet r, e)
  | PrimDelete _ =>
      let '(r, e) := json_Decode_DeleteRequest body {| Delete_Key := [] |} in
      (ReqDelete r, e)
  | PrimSeek _ _ _ _ _ _ =>
      let '(r, e) := json_Decode_SeekRequest body
                       {| StartPrefix := []; ValidForPrefix := [];
                          MaxKeyLen := 0; NumToFetch := 0; Reverse := false;
                          FetchValues := false |} in (ReqSeek r, e)
  end.

(** The response the handler of [p] encodes for the result [o], when [o] is
    a result of [p] without error. *)
Definition success_response (p : primitive) (o : outcome) : option response :=
  match p, o with
  | PrimPut _ _, OutError None =>
      Some (RespPut Build_GlobalStatePutRemoteResponse)
  | PrimDelete _, OutError None =>
      Some (RespDelete Build_GlobalStateDeleteRemoteResponse)
  | PrimGet _, OutValue (Ok v) => Some (RespGet {| Get_Value := v |})
  | PrimBatchGet _, OutValueList (Ok vs) =>
      Some (RespBatchGet {| BatchGet_ValueList := vs |})
  | PrimSeek _ _ _ _ _ _, OutKeysVals (Ok (ks, vs)) =>
      Some (RespSeek {| KeysFound := ks; ValsFound := vs |})
  | _, _ => None
  end.

Definition is_bad_request (x : response_write) : bool :=
  match x with WriteBadRequest _ => true | WriteBody _ => false end.

(** A codec for running the handlers: a get request is the key itself, a
    get response the value itself; an empty body does not decode, and the
    other requests are not supported. *)
Definition raw_handler_externals : HandlerExternals :=
  {| MaxRequestBodySizeBytes := 1024;
     json_Decode_PutRequest := fun _ r => (r, Some "unsupported");
     json_Decode_GetRequest := fun body r =>
       match body with
       | [] => (r, Some "EOF")
       | _ => ({| Get_Key := body |}, None)
       end;
     json_Decode_BatchGetRequest := fun _ r => (r, Some "unsupported");
     json_Decode_DeleteRequest := fun _ r => (r, Some "unsupported");
     json_Decode_SeekRequest := fun _ r => (r, Some "unsupported");
     json_Encode := fun res =>
       match res with
       | RespGet r => (Get_Value r, None)
       | _ => ([], None)
       end |}.

(** The client side of that codec, with a fixed answer to every POST. *)
Definition raw_externals (answer : http_result) : Externals :=
  {| json_Marshal := fun r =>
       match r with
       | ReqGet r => Ok (Get_Key r)
       | _ => Err "unsupported"
       end;
     json_Decode_Get := fun body _ => ({| Get_Value := body |}, None);
     json_Decode_BatchGet := fun _ r => (r, None);
     json_Decode_Seek := fun _ r => (r, None);
     http_Post := fun _ _ _ => answer;
     DBGetPaginatedKeysAndValuesForPrefix :=
       fun _ _ _ _ _ _ _ => Ok ([], []) |}.

(** The client's decoder reads [body] back as the response [res]; a put or
    delete response is not decoded by the client. *)
Definition client_decodes `{Externals} (body : bytes) (res : response) : Prop :=
  match res with
  | RespGet r => fst (json_Decode_Get body {| Get_Value := [] |}) = r
  | RespBatchGet r =>
      fst (json_Decode_BatchGet body {| BatchGet_ValueList := [] |}) = r
  | RespSeek r =>
      fst (json_Decode_Seek body {| KeysFound := []; ValsFound := [] |}) = r
  | RespPut _ | RespDelete _ => True
  end.

(** Two databases that fail alike and hold the same value at [key]. *)
Definition same_at (db db' : DB) (key : bytes) : Prop :=
  db_view_fault db' = db_view_fault db /\
  db_get_fault db' key = db_get_fault db key /\
  db_copy_fault db' key = db_copy_fault db key /\
  db_kv db' !! key = db_kv db !! key.

(** * Theorems *)

(** ** The dispatch branch *)

Section Dispatch.
Context `{Externals}.

Lemma no_remote_node (fes : APIServer) :
  GlobalStateRemoteNode fes = "" -> has_remote_node fes = false.
Proof. unfold has_remote_node. intros ->. reflexivity. Qed.

Lemma some_remote_node (fes : APIServer) :
  GlobalStateRemoteNode fes <> "" -> has_remote_node fes = true.
Proof.
  unfold has_remote_node. intros Hne.
  destruct (String.eqb_spec (GlobalStateRemoteNode fes) "") as [E | _];
    [contradiction | reflexivity].
Qed.

Lemma has_remote_node_spec (fes : APIServer) :
  has_remote_node fes = true <-> GlobalStateRemoteNode fes <> "".
Proof.
  split.
  - intros Ht E. rewrite (no_remote_node _ E) in Ht. discriminate.
  - apply some_remote_node.
Qed.

(** The local path of each primitive, as one database call. *)

Lemma GlobalStatePut_local fes key value w :
  GlobalStateRemoteNode fes = "" ->
  GlobalStatePut fes key value w =
  let '(db', err) :=
    DB_Update (GlobalStateDB w) (fun txn => txn_Set txn key value) in
  (err, {| GlobalStateDB := db'; calls := calls w ++ [EvDBUpdate] |}).
Proof.
  intros Hl. unfold GlobalStatePut. rewrite (no_remote_node _ Hl).
  unfold update, wbind, log. cbn.
  destruct (DB_Update _ _); reflexivity.
Qed.

Lemma GlobalStateDelete_local fes key w :
  GlobalStateRemoteNode fes = "" ->
  GlobalStateDelete fes key w =
  let '(db', err) :=
    DB_Update (GlobalStateDB w) (fun txn => txn_Delete txn key) in
  (err, {| GlobalStateDB := db'; calls := calls w ++ [EvDBUpdate] |}).
Proof.
  intros Hl. unfold GlobalStateDelete. rewrite (no_remote_node _ Hl).
  unfold update, wbind, log. cbn.
  destruct (DB_Update _ _); reflexivity.
Qed.

Lemma GlobalStateGet_local fes key w :
  GlobalStateRemoteNode fes = "" ->
  GlobalStateGet fes key w =
  (get_local (GlobalStateDB w) key,
   {| GlobalStateDB := GlobalStateDB w; calls := calls w ++ [EvDBView] |}).
Proof.
  intros Hl. unfold GlobalStateGet. rewrite (no_remote_node _ Hl).
  unfold view, wbind, log, DB_View, get_local, get_in_txn. cbn.
  destruct (db_view_fault (GlobalStateDB w)); [reflexivity |].
  destruct (txn_Get _ _) as [item | e]; [| reflexivity].
  destruct (Item_ValueCopy _ _); reflexivity.
Qed.

Lemma GlobalStateBatchGet_local fes keyList w :
  GlobalStateRemoteNode fes = "" ->
  GlobalStateBatchGet fes keyList w =
  (batch_get_local (GlobalStateDB w) keyList,
   {| GlobalStateDB := GlobalStateDB w; calls := calls w ++ [EvDBView] |}).
Proof.
  intros Hl. unfold GlobalStateBatchGet. rewrite (no_remote_node _ Hl).
  unfold view, wbind, log, batch_get_local. cbn.
  destruct (DB_View _ _ _) as [l [e |]]; reflexivity.
Qed.

(** The readings when the read transaction runs. *)

Lemma get_local_open (db : DB) (key : bytes) :
  db_view_fault db = None -> get_local db key = get_in_txn db key.
Proof. unfold get_local. intros ->. reflexivity. Qed.

Lemma batch_get_local_open (db : DB) (keyList : list bytes) :
  db_view_fault db = None ->
  batch_get_local db keyList =
  match batch_get_loop db keyList [] with
  | (_, Some err) =>
      Err ("GlobalStateBatchGet: Error copying value into new slice: " +:+ err)
  | (retValueList, None) => Ok retValueList
  end.
Proof. unfold batch_get_local, DB_View. intros ->. reflexivity. Qed.

Lemma batch_get_local_closed (db : DB) (keyList : list bytes) (err : string) :
  db_view_fault db = Some err ->
  batch_get_local db keyList =
  Err ("GlobalStateBatchGet: Error copying value into new slice: " +:+ err).
Proof. unfold batch_get_local, DB_View. intros ->. reflexivity. Qed.

End Dispatch.

(** ** Round trips on the local store *)

Section LocalStore.
Context `{Externals}.

Lemma txn_Get_found (db : DB) (key v : bytes) :
  db_get_fault db key = None -> db_kv db !! key = Some v ->
  txn_Get db key = inl {| item_key := key; item_value := v |}.
Proof. intros Hg Hv. unfold txn_Get. rewrite Hg, Hv. reflexivity. Qed.

Lemma txn_Get_missing (db : DB) (key : bytes) :
  db_get_fault db key = None -> db_kv db !! key = None ->
  txn_Get db key = inr ErrKeyNotFound.
Proof. intros Hg Hv. unfold txn_Get. rewrite Hg, Hv. reflexivity. Qed.

Lemma get_in_txn_found (db : DB) (key v : bytes) :
  db_get_fault db key = None -> db_copy_fault db key = None ->
  db_kv db !! key = Some v -> get_in_txn db key = Ok v.
Proof.
  intros Hg Hc Hv. unfold get_in_txn. rewrite (txn_Get_found _ _ _ Hg Hv).
  unfold Item_ValueCopy. cbn. rewrite Hc. reflexivity.
Qed.

Lemma get_in_txn_missing (db : DB) (key : bytes) :
  db_get_fault db key = None -> db_kv db !! key = None ->
  get_in_txn db key = Ok [].
Proof.
  intros Hg Hv. unfold get_in_txn. rewrite (txn_Get_missing _ _ Hg Hv).
  reflexivity.
Qed.

(** C1, amended.  With no remote node configured: when the engine carries out
    the calls, from any store [GlobalStatePut(key, value)] returns no error
    and a following [GlobalStateGet(key)] returns [value], and
    [GlobalStateDelete(key)] returns no error and a following
    [GlobalStateGet(key)] returns the empty value; when the engine refuses
    the write or the delete, the call returns the engine's error and the
    store is as it was. *)
Theorem put_get_delete_round_trip (fes : APIServer) (w : World)
    (key value : bytes) :
  GlobalStateRemoteNode fes = "" ->
  (engine_serves (GlobalStateDB w) key value ->
   fst (GlobalStatePut fes key value w) = None /\
   fst (GlobalStateGet fes key (snd (GlobalStatePut fes key value w)))
     = Ok value /\
   fst (GlobalStateDelete fes key w) = None /\
   fst (GlobalStateGet fes key (snd (GlobalStateDelete fes key w))) = Ok []) /\
  (forall e, db_set_fault (GlobalStateDB w) key value = Some e ->
     fst (GlobalStatePut fes key value w) = Some e /\
     GlobalStateDB (snd (GlobalStatePut fes key value w)) = GlobalStateDB w) /\
  (forall e, db_delete_fault (GlobalStateDB w) key = Some e ->
     fst (GlobalStateDelete fes key w) = Some e /\
     GlobalStateDB (snd (GlobalStateDelete fes key w)) = GlobalStateDB w).
Proof.
  intros Hl.
  rewrite (GlobalStatePut_local _ _ _ _ Hl), (GlobalStateDelete_local _ _ _ Hl).
  unfold DB_Update, txn_Set, txn_Delete.
  split; [| split].
  - intros (Hv & Hs & Hd & Hc & Hg & Hcp). rewrite Hs, Hd, Hc. cbn.
    rewrite !(GlobalStateGet_local _ _ _ Hl). cbn.
    rewrite !get_local_open by exact Hv.
    repeat split.
    + apply get_in_txn_found; cbn; auto. apply lookup_insert_eq.
    + apply get_in_txn_missing; cbn; auto. apply lookup_delete_eq.
  - intros e ->. cbn. auto.
  - intros e ->. cbn. auto.
Qed.

End LocalStore.

(** The round trip on the key [0,1,2], from a store that holds it with
    another value; and a put at the empty key, which the engine refuses. *)
Lemma put_get_delete_round_trip_witness :
  let E := fixed_externals (HttpError "unused") in
  let w := world_of (badger_db {[ key012 := key999 ]}) in
  (fst (@GlobalStateGet E local_server key012 w) = Ok key999 /\
   fst (@GlobalStatePut E local_server key012 value_x w) = None /\
   fst (@GlobalStateGet E local_server key012
          (snd (@GlobalStatePut E local_server key012 value_x w)))
     = Ok value_x /\
   fst (@GlobalStateDelete E local_server key012 w) = None /\
   fst (@GlobalStateGet E local_server key012
          (snd (@GlobalStateDelete E local_server key012 w))) = Ok []) /\
  fst (@GlobalStatePut E local_server [] value_x w) = Some ErrEmptyKey.
Proof.
  intros E w. split.
  - split; [vm_compute; reflexivity |].
    apply (@put_get_delete_round_trip E local_server w key012 value_x eq_refl).
    unfold engine_serves. cbn. repeat split.
  - apply (@put_get_delete_round_trip E local_server w [] value_x eq_refl).
    reflexivity.
Defined.

(** C1 fails as stated: badger refuses the empty key, and
    [GlobalStatePut] returns its error. *)
Lemma put_refused_for_empty_key :
  let E := fixed_externals (HttpError "unused") in
  let w := world_of (badger_db ∅) in
  fst (@GlobalStatePut E local_server [] value_x w) = Some ErrEmptyKey /\
  ~ round_trip_on_every_store.
Proof.
  intros E w.
  assert (Hgot : fst (@GlobalStatePut E local_server [] value_x w)
                 = Some ErrEmptyKey) by reflexivity.
  split; [exact Hgot |]. intros Hclaim.
  destruct (Hclaim E local_server w [] value_x eq_refl) as (Hput & _).
  rewrite Hgot in Hput. discriminate.
Qed.

(** ** Batch reads *)

Section BatchGet.
Context `{Externals}.

(** With lookups and copies that do not fail, the loop appends one entry per
    key, in order: the stored value, or the empty value for a key that is not
    there. *)
Lemma batch_get_loop_reads (db : DB) (keyList acc : list bytes) :
  Forall (fun key => db_get_fault db key = None /\ db_copy_fault db key = None)
         keyList ->
  batch_get_loop db keyList acc =
  (acc ++ map (fun key => default [] (db_kv db !! key)) keyList, None).
Proof.
  revert acc. induction keyList as [| key rest IH]; intros acc Hr; cbn.
  - rewrite app_nil_r. reflexivity.
  - inversion Hr as [| ? ? [Hg Hc] Hrest]; subst.
    unfold txn_Get. rewrite Hg.
    destruct (db_kv db !! key) as [v |] eqn:Hv; cbn.
    + unfold Item_ValueCopy. cbn. rewrite Hc.
      rewrite (IH _ Hrest), <- app_assoc. reflexivity.
    + rewrite (IH _ Hrest), <- app_assoc. reflexivity.
Qed.

(** C2, amended.  With no remote node configured and no engine failure,
    [GlobalStateBatchGet(keyList)] returns a list as long as [keyList] whose
    i-th entry is the stored value of the i-th key when that key is present
    and the empty value when it is absent; an entry is empty exactly where the
    key is absent or is stored with an empty value. *)
Theorem batch_get_aligned (fes : APIServer) (w : World) (keyList : list bytes) :
  GlobalStateRemoteNode fes = "" ->
  engine_reads (GlobalStateDB w) keyList ->
  exists valueList,
    fst (GlobalStateBatchGet fes keyList w) = Ok valueList /\
    length valueList = length keyList /\
    forall i key, keyList !! i = Some key ->
      (forall v, db_kv (GlobalStateDB w) !! key = Some v ->
                 valueList !! i = Some v) /\
      (db_kv (GlobalStateDB w) !! key = None -> valueList !! i = Some []) /\
      (valueList !! i = Some [] <->
       db_kv (GlobalStateDB w) !! key = None \/
       db_kv (GlobalStateDB w) !! key = Some []).
Proof.
  intros Hl [Hv Hr].
  exists (map (fun key => default [] (db_kv (GlobalStateDB w) !! key)) keyList).
  rewrite (GlobalStateBatchGet_local _ _ _ Hl). cbn [fst].
  rewrite (batch_get_local_open _ _ Hv), (batch_get_loop_reads _ _ _ Hr).
  cbn. split; [reflexivity |]. split; [apply length_map |].
  intros i key Hi. rewrite list_lookup_fmap, Hi. cbn.
  destruct (db_kv (GlobalStateDB w) !! key) as [v |]; cbn.
  - repeat split.
    + congruence.
    + discriminate.
    + intros E; right; congruence.
    + intros [E | E]; congruence.
  - repeat split; try discriminate; auto.
Qed.

End BatchGet.

(** A batch read of [0,1,2] and [9,9,9] when only the first was ever put. *)
Lemma batch_get_aligned_witness :
  let E := fixed_externals (HttpError "unused") in
  let w := world_of (healthy_db {[ key012 := value_x ]}) in
  exists valueList,
    fst (@GlobalStateBatchGet E local_server [key012; key999] w) = Ok valueList /\
    length valueList = 2 /\
    valueList !! 0 = Some value_x /\ valueList !! 1 = Some [].
Proof.
  intros E w.
  destruct (@batch_get_aligned E local_server w [key012; key999])
    as (valueList & Hv & Hlen & Hpos).
  - reflexivity.
  - unfold engine_reads. split; [reflexivity | repeat constructor].
  - exists valueList. split; [exact Hv |]. split; [exact Hlen |]. split.
    + destruct (Hpos 0 key012 eq_refl) as (Hpresent & _ & _).
      apply Hpresent. vm_compute. reflexivity.
    + destruct (Hpos 1 key999 eq_refl) as (_ & Habsent & _).
      apply Habsent. vm_compute. reflexivity.
Defined.

(** C2 fails as stated: after [GlobalStatePut(key, []byte{})] on an empty
    store the key is present, and [GlobalStateBatchGet] returns the empty
    value at its position. *)
Lemma batch_get_empty_entry_for_present_key :
  let E := fixed_externals (HttpError "unused") in
  let w := snd (@GlobalStatePut E local_server key012 []
                  (world_of (healthy_db ∅))) in
  (db_kv (GlobalStateDB w) !! key012 = Some [] /\
   fst (@GlobalStateBatchGet E local_server [key012] w) = Ok [[]]) /\
  ~ batch_get_empty_exactly_when_absent.
Proof.
  intros E w.
  assert (Hfacts : db_kv (GlobalStateDB w) !! key012 = Some [] /\
                   fst (@GlobalStateBatchGet E local_server [key012] w)
                   = Ok [[]]).
  { split; vm_compute; reflexivity. }
  split; [exact Hfacts |].
  destruct Hfacts as [Hpresent Hgot].
  intros Hclaim.
  destruct (Hclaim E local_server w [key012]) as (valueList & Hv & _ & Hpos).
  - reflexivity.
  - unfold engine_reads. split; [reflexivity | repeat constructor].
  - rewrite Hgot in Hv. injection Hv as <-.
    destruct (Hpos 0 key012 eq_refl) as [_ [Habs _]].
    specialize (Habs eq_refl). rewrite Hpresent in Habs. discriminate.
Qed.

(** ** Failures of the engine on the read path *)

Section ReadFailures.
Context `{Externals}.

(** C4, amended.  On the local path, when the read transaction runs,
    [GlobalStateGet] reports every failed lookup, key-not-found or not, as
    the empty value with no error, and returns the value of a key that is
    found and copied.  It returns an error, naming the operation, when the
    lookup finds the key and copying its value fails, and when the engine
    refuses the read transaction. *)
Theorem get_reports_failed_lookup_as_absent (fes : APIServer) (w : World)
    (key : bytes) :
  GlobalStateRemoteNode fes = "" ->
  (forall err,
     db_view_fault (GlobalStateDB w) = None ->
     txn_Get (GlobalStateDB w) key = inr err ->
     fst (GlobalStateGet fes key w) = Ok []) /\
  (forall item v,
     db_view_fault (GlobalStateDB w) = None ->
     txn_Get (GlobalStateDB w) key = inl item ->
     Item_ValueCopy (GlobalStateDB w) item = Ok v ->
     fst (GlobalStateGet fes key w) = Ok v) /\
  (forall item msg,
     db_view_fault (GlobalStateDB w) = None ->
     txn_Get (GlobalStateDB w) key = inl item ->
     Item_ValueCopy (GlobalStateDB w) item = Err msg ->
     fst (GlobalStateGet fes key w) =
     Err ("GlobalStateGet: Error copying value into new slice: " +:+ msg)) /\
  (forall msg,
     db_view_fault (GlobalStateDB w) = Some msg ->
     fst (GlobalStateGet fes key w) =
     Err ("GlobalStateGet: Error copying value into new slice: " +:+ msg)).
Proof.
  intros Hl. rewrite (GlobalStateGet_local _ _ _ Hl). cbn.
  unfold get_local, get_in_txn.
  repeat split.
  - intros err -> ->. reflexivity.
  - intros item v -> -> ->. reflexivity.
  - intros item msg -> -> ->. reflexivity.
  - intros msg ->. reflexivity.
Qed.

(** A key of the list that is found and cannot be copied makes the loop stop
    with an error. *)
Lemma batch_get_loop_copy_failure (db : DB) (keyList acc : list bytes)
    (i : nat) (key : bytes) (item : Item) (msg : string) :
  keyList !! i = Some key ->
  txn_Get db key = inl item ->
  Item_ValueCopy db item = Err msg ->
  exists err, snd (batch_get_loop db keyList acc) = Some err.
Proof.
  revert acc i.
  induction keyList as [| k rest IH]; intros acc i Hi Hg Hc.
  - discriminate.
  - cbn. destruct i as [| i]; cbn in Hi.
    + injection Hi as ->. rewrite Hg, Hc. cbn. eauto.
    + destruct (txn_Get db k) as [it |].
      * destruct (Item_ValueCopy db it); [| cbn; eauto].
        apply (IH _ i); assumption.
      * apply (IH _ i); assumption.
Qed.

(** C9.  On the local path, if a key of the list is found and copying its
    value fails, [GlobalStateBatchGet] returns an error, naming the
    operation, and no value list. *)
Theorem batch_get_copy_failure_aborts (fes : APIServer) (w : World)
    (keyList : list bytes) (i : nat) (key : bytes) (item : Item)
    (msg : string) :
  GlobalStateRemoteNode fes = "" ->
  keyList !! i = Some key ->
  txn_Get (GlobalStateDB w) key = inl item ->
  Item_ValueCopy (GlobalStateDB w) item = Err msg ->
  exists err,
    fst (GlobalStateBatchGet fes keyList w) =
    Err ("GlobalStateBatchGet: Error copying value into new slice: " +:+ err).
Proof.
  intros Hl Hi Hg Hc. rewrite (GlobalStateBatchGet_local _ _ _ Hl). cbn.
  destruct (db_view_fault (GlobalStateDB w)) as [e |] eqn:Hv.
  { rewrite (batch_get_local_closed _ _ _ Hv). eauto. }
  rewrite (batch_get_local_open _ _ Hv).
  destruct (batch_get_loop_copy_failure _ keyList [] _ _ _ _ Hi Hg Hc)
    as [err Herr].
  destruct (batch_get_loop (GlobalStateDB w) keyList []) as [l o].
  cbn in Herr. subst o. eauto.
Qed.

End ReadFailures.

(** A get of a stored key: when the lookup fails, when the copy fails, and
    when the store is closed. *)
Lemma get_reports_failed_lookup_as_absent_witness :
  let E := fixed_externals (HttpError "unused") in
  let kv : gmap bytes bytes := {[ key012 := value_x ]} in
  fst (@GlobalStateGet E local_server key012
         (world_of (unreadable_db kv "read failed"))) = Ok [] /\
  fst (@GlobalStateGet E local_server key012
         (world_of (uncopyable_db kv key012 "copy failed"))) =
  Err "GlobalStateGet: Error copying value into new slice: copy failed" /\
  fst (@GlobalStateGet E local_server key999
         (world_of (closed_db kv "DB Closed"))) =
  Err "GlobalStateGet: Error copying value into new slice: DB Closed".
Proof.
  intros E kv. split; [| split].
  - destruct (@get_reports_failed_lookup_as_absent E local_server
                (world_of (unreadable_db kv "read failed")) key012 eq_refl)
      as (Hlookup & _).
    apply (Hlookup (ErrEngine "read failed")); reflexivity.
  - destruct (@get_reports_failed_lookup_as_absent E local_server
                (world_of (uncopyable_db kv key012 "copy failed")) key012
                eq_refl) as (_ & _ & Hcopy & _).
    apply (Hcopy {| item_key := key012; item_value := value_x |}
                 "copy failed"); vm_compute; reflexivity.
  - destruct (@get_reports_failed_lookup_as_absent E local_server
                (world_of (closed_db kv "DB Closed")) key999 eq_refl)
      as (_ & _ & _ & Hclosed).
    apply (Hclosed "DB Closed"). reflexivity.
Defined.

(** C4 fails as stated: with a stored key and an engine whose lookup fails
    with a read error, [GlobalStateGet] returns the empty value and no
    error. *)
Lemma get_hides_lookup_failure :
  let E := fixed_externals (HttpError "unused") in
  let w := world_of (unreadable_db {[ key012 := value_x ]} "read failed") in
  (txn_Get (GlobalStateDB w) key012 = inr (ErrEngine "read failed") /\
   fst (@GlobalStateGet E local_server key012 w) = Ok []) /\
  ~ lookup_failure_is_reported.
Proof.
  intros E w.
  assert (Hfacts :
    txn_Get (GlobalStateDB w) key012 = inr (ErrEngine "read failed") /\
    fst (@GlobalStateGet E local_server key012 w) = Ok []).
  { split; reflexivity. }
  split; [exact Hfacts |].
  destruct Hfacts as [Hfail Hgot]. intros Hclaim.
  destruct (Hclaim E local_server w key012 "read failed" eq_refl Hfail)
    as [e He].
  rewrite Hgot in He. discriminate.
Qed.

(** A batch read of two stored keys, the second of which cannot be
    copied. *)
Lemma batch_get_copy_failure_aborts_witness :
  let E := fixed_externals (HttpError "unused") in
  let kv : gmap bytes bytes := {[ key012 := value_x; key999 := value_x ]} in
  exists err,
    fst (@GlobalStateBatchGet E local_server [key012; key999]
           (world_of (uncopyable_db kv key999 "copy failed"))) =
    Err ("GlobalStateBatchGet: Error copying value into new slice: " +:+ err).
Proof.
  intros E kv.
  apply (@batch_get_copy_failure_aborts E local_server
           (world_of (uncopyable_db kv key999 "copy failed"))
           [key012; key999] 1 key999
           {| item_key := key999; item_value := value_x |} "copy failed");
    vm_compute; reflexivity.
Defined.

(** ** Local or remote *)

Section LocalOrRemote.
Context `{Externals}.

(** Case analysis on what the decoder made of a response body. *)
Ltac decode_cases :=
  try match goal with
      | |- context [json_Decode_Get ?b ?r] => destruct (json_Decode_Get b r)
      | |- context [json_Decode_BatchGet ?b ?r] =>
          destruct (json_Decode_BatchGet b r)
      | |- context [json_Decode_Seek ?b ?r] => destruct (json_Decode_Seek b r)
      end.

Lemma create_request_url (fes : APIServer) (p : primitive) (url : string)
    (json_data : bytes) :
  create_request fes p = Ok (url, json_data) ->
  url = remote_url fes (route_of p) /\
  exists r, json_Marshal r = Ok json_data.
Proof.
  destruct p; cbn;
    unfold CreateGlobalStatePutRequest, CreateGlobalStateGetRequest,
      CreateGlobalStateBatchGetRequest, CreateGlobalStateDeleteRequest,
      CreateGlobalStateSeekRequest;
    cbn;
    match goal with
    | |- context [json_Marshal ?r] =>
        destruct (json_Marshal r) eqn:Hm; [| discriminate]
    end;
    intros [= <- <-]; eauto.
Qed.

(** The remote path: one POST when the request could be built, nothing
    otherwise; the world is needed for the log only. *)
Lemma run_primitive_remote (fes : APIServer) (p : primitive) (w : World) :
  GlobalStateRemoteNode fes <> "" ->
  GlobalStateDB (snd (run_primitive fes p w)) = GlobalStateDB w /\
  calls (snd (run_primitive fes p w)) =
    calls w ++ match create_request fes p with
               | Ok (url, json_data) =>
                   [EvHttpPost url "application/json" json_data]
               | Err _ => []
               end /\
  forall w2, fst (run_primitive fes p w2) = fst (run_primitive fes p w).
Proof.
  intros Hr. apply some_remote_node in Hr.
  destruct p; cbn;
    unfold GlobalStatePut, GlobalStateGet, GlobalStateBatchGet,
      GlobalStateDelete, GlobalStateSeek, wbind;
    rewrite Hr;
    match goal with
    | |- context [match ?c with Ok _ => _ | Err _ => _ end] =>
        destruct c as [[url json_data] | err]
    end;
    cbn; rewrite ?app_nil_r; try (repeat split; reflexivity);
    unfold post, wbind, log, wret; cbn;
    destruct (http_Post url "application/json" json_data);
    cbn; decode_cases; repeat split; reflexivity.
Qed.






(** C5, amended.  On the remote path, once the request is built: when
    [http.Post] returns an error the primitive returns an error that names
    the operation and carries a fixed text, not the transport error; when
    [http.Post] returns a response, of any status, the primitive returns no
    error. *)
Theorem remote_reports_transport_errors_only (fes : APIServer) (p : primitive)
    (w : World) (url : string) (json_data : bytes) :
  GlobalStateRemoteNode fes <> "" ->
  create_request fes p = Ok (url, json_data) ->
  (forall err,
     http_Post url "application/json" json_data = HttpError err ->
     outcome_error (fst (run_primitive fes p w)) =
     Some (primitive_name p +:+ ": Error processing remote request")) /\
  (forall status body,
     http_Post url "application/json" json_data = HttpResponse status body ->
     outcome_error (fst (run_primitive fes p w)) = None).
Proof.
  intros Hr Hreq. apply some_remote_node in Hr.
  split; [intros err Hpost | intros status body Hpost];
    destruct p; cbn in Hreq |- *;
    unfold GlobalStatePut, GlobalStateGet, GlobalStateBatchGet,
      GlobalStateDelete, GlobalStateSeek, wbind;
    rewrite Hr, Hreq; unfold post, wbind, log, wret; cbn; rewrite Hpost;
    cbn; decode_cases; reflexivity.
Qed.

End LocalOrRemote.

(** A get through a remote node that refuses the connection, and through
    one that answers. *)
Lemma remote_reports_transport_errors_only_witness :
  let refused := fixed_externals (HttpError "connection refused") in
  let answered := fixed_externals (HttpResponse 200 []) in
  let w := world_of (healthy_db ∅) in
  outcome_error (fst (@run_primitive refused proxy_server (PrimGet key012) w))
    = Some "GlobalStateGet: Error processing remote request" /\
  outcome_error (fst (@run_primitive answered proxy_server (PrimGet key012) w))
    = None.
Proof.
  intros refused answered w.
  pose (url := remote_url proxy_server RoutePathGlobalStateGetRemote).
  split.
  - destruct (@remote_reports_transport_errors_only refused proxy_server
                (PrimGet key012) w url []) as [Herr _].
    + vm_compute. discriminate.
    + reflexivity.
    + apply (Herr "connection refused"). reflexivity.
  - destruct (@remote_reports_transport_errors_only answered proxy_server
                (PrimGet key012) w url []) as [_ Hresp].
    + vm_compute. discriminate.
    + reflexivity.
    + apply (Hresp 200%Z []). reflexivity.
Defined.

(** C5 fails as stated: when the remote node answers a put with status 500,
    [http.Post] returns a response and no error, and [GlobalStatePut] returns
    nil. *)
Lemma remote_put_ignores_status_500 :
  let E := fixed_externals (HttpResponse 500 []) in
  let w := world_of (healthy_db ∅) in
  fst (@GlobalStatePut E proxy_server key012 value_x w) = None /\
  ~ remote_failure_is_reported.
Proof.
  intros E w.
  assert (Hgot : fst (@GlobalStatePut E proxy_server key012 value_x w) = None)
    by reflexivity.
  split; [exact Hgot |]. intros Hclaim.
  destruct (Hclaim E proxy_server (PrimPut key012 value_x) w
              (remote_url proxy_server RoutePathGlobalStatePutRemote) [])
    as [_ Hstatus].
  - vm_compute. discriminate.
  - reflexivity.
  - destruct (Hstatus 500%Z [] eq_refl) as [e He]; [lia |].
    cbn in He. unfold wbind in He.
    change (@GlobalStatePut E proxy_server key012 value_x w)
      with (@None string, snd (@GlobalStatePut E proxy_server key012 value_x w))
      in He.
    discriminate.
Qed.

(** ** Keys *)

Section PhoneKeys.
Context `{PhoneLib}.

(** C6.  Two strings that the phone number library parses to the same number
    get the same key, and a string that does not parse gets an error and no
    key. *)
Theorem phone_key_by_parsed_number :
  (forall (s1 s2 : string) (n : PhoneNumber),
     phonenumbers_Parse s1 "" = Ok n ->
     phonenumbers_Parse s2 "" = Ok n ->
     exists key,
       GlobalStateKeyForPhoneNumberStringToPhoneNumberMetadata s1 = Ok key /\
       GlobalStateKeyForPhoneNumberStringToPhoneNumberMetadata s2 = Ok key) /\
  (forall (s : string) (e : string),
     phonenumbers_Parse s "" = Err e ->
     exists msg,
       GlobalStateKeyForPhoneNumberStringToPhoneNumberMetadata s = Err msg).
Proof.
  unfold GlobalStateKeyForPhoneNumberStringToPhoneNumberMetadata. split.
  - intros s1 s2 n -> ->. eauto.
  - intros s e ->. eauto.
Qed.

End PhoneKeys.

(** The same number with and without punctuation, and a string with no
    country code. *)
Lemma phone_key_by_parsed_number_witness :
  @GlobalStateKeyForPhoneNumberStringToPhoneNumberMetadata digits_phone_lib
    "+1 (650) 253-0000" =
  @GlobalStateKeyForPhoneNumberStringToPhoneNumberMetadata digits_phone_lib
    "+16502530000" /\
  is_ok (@GlobalStateKeyForPhoneNumberStringToPhoneNumberMetadata
           digits_phone_lib "+16502530000") = true /\
  is_err (@GlobalStateKeyForPhoneNumberStringToPhoneNumberMetadata
            digits_phone_lib "650-253-0000") = true.
Proof.
  destruct (@phone_key_by_parsed_number digits_phone_lib) as [Hsame Hbad].
  destruct (Hsame "+1 (650) 253-0000" "+16502530000" "16502530000"
              eq_refl eq_refl) as (key & -> & ->).
  destruct (Hbad "650-253-0000" "invalid country code" eq_refl) as (msg & ->).
  repeat split.
Defined.

Section UsernameKeys.
Context `{UnicodeLib}.

Lemma string_map_lower_no_upper (s : string) :
  hasUpper s = false -> string_map lower_byte s = s.
Proof.
  unfold hasUpper. induction s as [| c s IH]; cbn; [reflexivity |].
  intros [Hc Hs]%orb_false_iff. rewrite (IH Hs). unfold lower_byte.
  rewrite Hc. reflexivity.
Qed.

(** On a string of ASCII bytes [strings.ToLower] lowers byte by byte. *)
Lemma strings_ToLower_ascii (s : string) :
  isASCII s = true -> strings_ToLower s = string_map lower_byte s.
Proof.
  intros Ha. unfold strings_ToLower. rewrite Ha.
  destruct (hasUpper s) eqn:Hu; [reflexivity |].
  symmetry. apply string_map_lower_no_upper, Hu.
Qed.











End UsernameKeys.


Section KindPrefixes.
Context `{PhoneLib} `{UnicodeLib}.

Lemma construct_starts_with_prefix (c : key_call bytes bytes) (k : bytes) :
  construct c = Ok k -> exists rest, k = kind_prefix (kind_of c) ++ rest.
Proof.
  destruct c; cbn;
    try (intros [= <-]; eexists; reflexivity).
  unfold GlobalStateKeyForPhoneNumberStringToPhoneNumberMetadata.
  destruct (phonenumbers_Parse phoneNumber ""); [| discriminate].
  intros [= <-]. eexists. reflexivity.
Qed.

Lemma kind_prefix_byte (k : record_kind) :
  exists b, kind_prefix k = [b] /\ [b] ∈ declared_prefixes.
Proof.
  destruct k; eexists; (split; [reflexivity |]);
    unfold declared_prefixes; set_solver.
Qed.

Lemma kind_prefix_inj (k1 k2 : record_kind) :
  kind_prefix k1 = kind_prefix k2 -> k1 = k2.
Proof. destruct k1, k2; (reflexivity || discriminate). Qed.

(** C8.  Keys made by the constructors of two different record kinds are
    never equal: a key starts with the prefix byte of its kind, and the nine
    declared prefixes are the single bytes 0 to 8, no two the same. *)
Theorem keys_of_distinct_kinds_differ :
  (forall (c1 c2 : key_call bytes bytes) (k1 k2 : bytes),
     kind_of c1 <> kind_of c2 ->
     construct c1 = Ok k1 -> construct c2 = Ok k2 -> k1 <> k2) /\
  (forall (c : key_call bytes bytes) (k : bytes),
     construct c = Ok k ->
     exists b rest, kind_prefix (kind_of c) = [b] /\ k = b :: rest) /\
  declared_prefixes =
    map (fun b => [b]) [x00; x01; x02; x03; x04; x05; x06; x07; x08] /\
  NoDup declared_prefixes.
Proof.
  assert (Hhead : forall (c : key_call bytes bytes) (k : bytes),
            construct c = Ok k ->
            exists b rest, kind_prefix (kind_of c) = [b] /\ k = b :: rest).
  { intros c k Hk.
    destruct (construct_starts_with_prefix c k Hk) as [rest ->].
    destruct (kind_prefix_byte (kind_of c)) as (b & -> & _). eauto. }
  repeat split.
  - intros c1 c2 k1 k2 Hkind H1 H2 Heq. subst k2.
    destruct (Hhead _ _ H1) as (b1 & r1 & Hp1 & ->).
    destruct (Hhead _ _ H2) as (b2 & r2 & Hp2 & [= -> _]).
    apply Hkind, kind_prefix_inj. congruence.
  - exact Hhead.
  - apply (bool_decide_unpack _). vm_compute. reflexivity.
Qed.

End KindPrefixes.

(** The graylist key and the blacklist key of one public key. *)
Lemma keys_of_distinct_kinds_differ_witness :
  @construct digits_phone_lib no_unicode_lib (CallGraylistedProfile key012)
    = Ok [x06; x00; x01; x02] /\
  @construct digits_phone_lib no_unicode_lib (CallBlacklistedProfile key012)
    = Ok [x07; x00; x01; x02] /\
  [x06; x00; x01; x02] <> [x07; x00; x01; x02].
Proof.
  destruct (@keys_of_distinct_kinds_differ digits_phone_lib no_unicode_lib)
    as [Hdiffer _].
  split; [reflexivity |]. split; [reflexivity |].
  apply (Hdiffer (CallGraylistedProfile key012)
                 (CallBlacklistedProfile key012)).
  - discriminate.
  - reflexivity.
  - reflexivity.
Defined.

(** ** Keys in memory *)

Lemma phone_string_key_cases `{PhoneLib} (s : string) :
  GlobalStateKeyForPhoneNumberStringToPhoneNumberMetadata s =
  match phonenumbers_Parse s "" with
  | Err err =>
      Err (": " +:+
           ("GlobalStateKeyForPhoneNumberStringToPhoneNumberMetadata: " +:+
            "Problem with phonenumbers.Parse: " +:+ err))
  | Ok n =>
      Ok (globalStateKeyForPhoneNumberBytesToPhoneNumberMetadata
            (bytes_of_string (phonenumbers_Format n E164)))
  end.
Proof. reflexivity. Qed.

Section InMemoryKeys.
Import InMemory.
Context `{GoRuntime} `{PhoneLib} `{UnicodeLib}.

Lemma bind_some {A B} (c : M A) (k : A -> M B) (m m' : Mem) (a : A) :
  c m = Some (a, m') -> bind c k m = k a m'.
Proof. unfold bind. intros ->. reflexivity. Qed.

Lemma leaves_intact_refl (m : Mem) : leaves_intact m m.
Proof. split; auto. Qed.

Lemma leaves_intact_dom (m0 m : Mem) (l : loc) :
  leaves_intact m0 m -> l ∈ dom (heap m0) -> l ∈ dom (heap m).
Proof.
  intros [_ Hh] Hl. apply elem_of_dom. rewrite (Hh l Hl).
  apply elem_of_dom, Hl.
Qed.

Lemma holds_dom (m : Mem) (s : slice) (bs : bytes) :
  holds m s bs -> s_arr s ∈ dom (heap m).
Proof. intros (a & Ha & _). apply elem_of_dom. eauto. Qed.

(** A slice of the initial store still holds its bytes. *)
Lemma holds_intact (m0 m : Mem) (s : slice) (bs : bytes) :
  leaves_intact m0 m -> holds m0 s bs -> holds m s bs.
Proof.
  intros [_ Hh] Hs. pose proof (holds_dom _ _ _ Hs) as Hd.
  destruct Hs as (a & Ha & Hb). exists a. rewrite (Hh _ Hd). auto.
Qed.

Lemma owned_holds (m0 m : Mem) (key : slice) (v : bytes) :
  owned m0 m key v -> holds m key v.
Proof.
  intros (_ & a & Ha & Hcap & Hlen & Hv). exists a. repeat split; auto. lia.
Qed.

Lemma read_slice_holds (m : Mem) (s : slice) (bs : bytes) :
  holds m s bs -> read_slice s m = Some (bs, m).
Proof.
  intros (a & Ha & Hb & Hv). unfold read_slice.
  destruct (s_len s =? 0)%nat eqn:Hz.
  - apply Nat.eqb_eq in Hz. rewrite Hz in Hv. cbn in Hv. subst bs. reflexivity.
  - rewrite Ha. destruct (Nat.leb_spec (s_off s + s_len s) (length a)); [| lia].
    subst bs. reflexivity.
Qed.

Lemma new_array_fresh (m0 m : Mem) (bs : bytes) :
  leaves_intact m0 m ->
  exists l m',
    new_array bs m = Some (l, m') /\
    leaves_intact m0 m' /\
    (l ∉ dom (heap m)) /\
    heap m' !! l = Some bs /\
    (forall l', l' <> l -> heap m' !! l' = heap m !! l').
Proof.
  intros Hi. unfold new_array.
  set (l := fresh (dom (heap m))).
  assert (Hl : l ∉ dom (heap m)) by apply is_fresh.
  exists l, (set_heap (<[l := bs]> (heap m)) m).
  split; [reflexivity |]. cbn. repeat split.
  - apply Hi.
  - intros l' Hl'. cbn. rewrite lookup_insert_ne.
    + apply Hi, Hl'.
    + intros ->. apply Hl, (leaves_intact_dom _ _ _ Hi Hl').
  - exact Hl.
  - apply lookup_insert_eq.
  - intros l' Hne. apply lookup_insert_ne. congruence.
Qed.

Lemma owned_other_array (m0 m m' : Mem) (key : slice) (v : bytes) :
  heap m' !! s_arr key = heap m !! s_arr key ->
  owned m0 m key v -> owned m0 m' key v.
Proof. intros Heq (Hf & a & Ha & Hrest). split; [exact Hf |]. exists a. rewrite Heq. auto. Qed.

Lemma holds_other_array (m m' : Mem) (s : slice) (bs : bytes) :
  heap m' !! s_arr s = heap m !! s_arr s ->
  holds m s bs -> holds m' s bs.
Proof. intros Heq (a & Ha & Hrest). exists a. rewrite Heq. auto. Qed.

(** [[]byte(str)], [lib.EncodeUint64]: a new slice; slices owned so far stay
    as they are. *)
Lemma new_slice_fresh (m0 m : Mem) (bs : bytes) :
  leaves_intact m0 m ->
  exists t m',
    new_slice bs m = Some (t, m') /\
    leaves_intact m0 m' /\
    holds m' t bs /\
    (forall key v, owned m0 m key v -> owned m0 m' key v).
Proof.
  intros Hi.
  destruct (new_array_fresh m0 m bs Hi) as (l & m' & Hrun & Hi' & Hl & Hb & Ho).
  exists (Slice l 0 (length bs) (length bs)), m'.
  unfold new_slice. rewrite (bind_some _ _ _ _ _ Hrun). split; [reflexivity |].
  split; [exact Hi' |]. split.
  - exists bs. cbn. rewrite Hb, drop_0, firstn_all. auto.
  - intros key v Hk. apply (owned_other_array m0 m); [| exact Hk].
    apply Ho. intros E. apply Hl. rewrite <- E.
    apply (holds_dom m key v), (owned_holds m0), Hk.
Qed.

Lemma take_drop_overwrite (a xs : bytes) (off len : nat) :
  off + len + length xs <= length a ->
  take (len + length xs)
       (drop off (take (off + len) a ++ xs ++ drop (off + len + length xs) a))
  = take len (drop off a) ++ xs.
Proof.
  intros Hle.
  rewrite drop_app_le by (rewrite length_take; lia).
  rewrite <- take_drop_commute, app_assoc.
  apply take_app_length'.
  rewrite length_app, length_take, length_drop. lia.
Qed.

(** [append([]byte{}, g...)] for a non-empty [g]: a new array. *)
Lemma go_append_literal (m0 m : Mem) (g : slice) (p : bytes) :
  leaves_intact m0 m -> holds m g p -> p <> [] ->
  exists key m',
    go_append empty_literal g m = Some (key, m') /\
    leaves_intact m0 m' /\
    owned m0 m' key p /\
    (forall s bs, holds m s bs -> holds m' s bs).
Proof.
  intros Hi Hg Hp. unfold go_append.
  rewrite (bind_some _ _ _ _ _ (read_slice_holds m g p Hg)). cbv beta zeta.
  cbn [empty_literal s_len s_cap s_arr s_off].
  change (0 + length p) with (length p).
  destruct (Nat.leb_spec (length p) 0) as [Hle | _].
  { destruct p; [congruence | cbn in Hle; lia]. }
  assert (Hread : read_slice (Slice zerobase 0 0 0) m = Some ([], m))
    by reflexivity.
  rewrite (bind_some _ _ _ _ _ Hread). cbn [app].
  destruct (new_array_fresh m0 m
              (p ++ replicate (growslice_cap 0 (length p) - length p) x00) Hi)
    as (l & m' & Hrun & Hi' & Hl & Hb & Ho).
  rewrite (bind_some _ _ _ _ _ Hrun).
  eexists _, m'. split; [reflexivity |]. split; [exact Hi' |].
  split; [split |]; cbn.
  - intros Hin. apply Hl, (leaves_intact_dom _ _ _ Hi Hin).
  - eexists. split; [exact Hb |].
    pose proof (growslice_cap_ge 0 (length p)) as Hge.
    rewrite length_app, length_replicate, drop_0.
    repeat split; try lia.
    apply take_app_length.
  - intros s bs Hs. apply (holds_other_array m); [| exact Hs].
    apply Ho. intros E. apply Hl. rewrite <- E. apply (holds_dom m s bs Hs).
Qed.

(** [append(key, src...)] for a slice the call owns: in place or in a new
    array, the result is owned and no array of the initial store changes. *)
Lemma go_append_owned (m0 m : Mem) (key : slice) (v : bytes) (src : slice)
    (xs : bytes) :
  leaves_intact m0 m -> owned m0 m key v -> holds m src xs ->
  exists key' m',
    go_append key src m = Some (key', m') /\
    leaves_intact m0 m' /\
    owned m0 m' key' (v ++ xs).
Proof.
  intros Hi Hk Hs. unfold go_append.
  rewrite (bind_some _ _ _ _ _ (read_slice_holds m src xs Hs)). cbv beta zeta.
  pose proof (owned_holds _ _ _ _ Hk) as Hkh.
  destruct Hk as (Hf & a & Ha & Hcap & Hlen & Hv).
  assert (Hvlen : length v = s_len key).
  { subst v. rewrite length_take, length_drop. lia. }
  destruct (Nat.leb_spec (s_len key + length xs) (s_cap key)) as [Hroom | Hfull].
  - (* in place *)
    unfold write_at at 1. destruct xs as [| x xs'] eqn:Hxs.
    + unfold bind, ret. eexists _, m. split; [reflexivity |].
      split; [exact Hi |]. split; [exact Hf |]. exists a. cbn.
      rewrite Nat.add_0_r, app_nil_r. auto.
    + rewrite <- Hxs in *. clear Hxs. unfold bind, ret. rewrite Ha.
      destruct (Nat.leb_spec (s_off key + s_len key + length xs) (length a))
        as [_ | Hbad]; [| lia].
      eexists _, _. split; [reflexivity |]. split; [| split].
      * split; [apply Hi |]. intros l Hl. cbn. rewrite lookup_insert_ne.
        -- apply Hi, Hl.
        -- intros E. apply Hf. rewrite E. exact Hl.
      * exact Hf.
      * eexists. cbn. split; [apply lookup_insert_eq |].
        rewrite !length_app, length_take, length_drop.
        repeat split; try lia.
        rewrite take_drop_overwrite by lia. congruence.
  - (* a new array *)
    rewrite (bind_some _ _ _ _ _ (read_slice_holds m key v Hkh)).
    destruct (new_array_fresh m0 m
                (v ++ xs ++
                 replicate (growslice_cap (s_cap key) (s_len key + length xs)
                            - (s_len key + length xs)) x00) Hi)
      as (l & m' & Hrun & Hi' & Hl & Hb & _).
    rewrite (bind_some _ _ _ _ _ Hrun).
    eexists _, m'. split; [reflexivity |]. split; [exact Hi' |].
    split; cbn.
    + intros Hin. apply Hl, (leaves_intact_dom _ _ _ Hi Hin).
    + eexists. split; [exact Hb |].
      pose proof (growslice_cap_ge (s_cap key) (s_len key + length xs)) as Hge.
      rewrite !length_app, length_replicate, drop_0.
      repeat split; try lia.
      rewrite app_assoc. apply take_app_length'.
      rewrite length_app. lia.
Qed.

Lemma slice_of_array_holds (m : Mem) (p : loc) (a : bytes) :
  heap m !! p = Some a ->
  slice_of_array p m = Some (Slice p 0 (length a) (length a), m) /\
  holds m (Slice p 0 (length a) (length a)) a.
Proof.
  intros Ha. unfold slice_of_array. rewrite Ha. split; [reflexivity |].
  exists a. cbn. rewrite drop_0, firstn_all. auto.
Qed.

Lemma array_intact (m0 m : Mem) (p : loc) (a : bytes) :
  leaves_intact m0 m -> heap m0 !! p = Some a -> heap m !! p = Some a.
Proof.
  intros [_ Hh] Ha. rewrite Hh; [exact Ha |]. apply elem_of_dom. eauto.
Qed.

(** The prefix variables hold their declared bytes. *)
Lemma globals_declared_holds (m : Mem) :
  globals_declared m ->
  Forall2 (fun f p => holds m (f (globals m)) p /\ p <> [])
    [ g_PublicKeyToUserMetadata; g_TstampNanosPostHash;
      g_PhoneNumberToPhoneNumberMetadata; g_TstampNanosPinnedPostHash;
      g_UsernameVerificationAuditLog; g_PublicKeyToGraylistState;
      g_PublicKeyToBlacklistState;
      g_UserPublicKeyContactPublicKeyToMostRecentReadTstampNanos ]
    (map kind_prefix
       [ KindUserMetadata; KindFeedEntry; KindPhoneMetadata;
         KindPinnedFeedEntry; KindAuditLog; KindGraylist; KindBlacklist;
         KindReadCursor ]).
Proof.
  intros [_ HF]. unfold declared_prefixes in HF.
  repeat match goal with
         | Hf : Forall2 _ (_ :: _) (_ :: _) |- _ =>
             apply Forall2_cons_1 in Hf as [? Hf]
         end.
  cbn. repeat constructor; (assumption || discriminate).
Qed.

(** The copy of a prefix: [append([]byte{}, prefix...)]. *)
Lemma prefix_copy (m0 m : Mem) (f : Globals -> slice) (p : bytes) :
  leaves_intact m0 m -> holds m0 (f (globals m0)) p -> p <> [] ->
  exists key m',
    go_append empty_literal (f (globals m)) m = Some (key, m') /\
    leaves_intact m0 m' /\
    owned m0 m' key p /\
    (forall s bs, holds m s bs -> holds m' s bs).
Proof.
  intros Hi Hg Hp.
  assert (Hg' : holds m (f (globals m)) p).
  { pose proof Hi as [Hgl _]. rewrite Hgl. exact (holds_intact _ _ _ _ Hi Hg). }
  apply (go_append_literal m0 m _ p Hi Hg' Hp).
Qed.

Ltac read_prefix :=
  unfold bind at 1, read_global; cbv beta iota.

Ltac copy_prefix m0 Hi Hg Hp k m1 Hi1 Hk1 Hkeep :=
  let Hrun := fresh "Hrun" in
  destruct (prefix_copy m0 _ _ _ Hi Hg Hp) as (k & m1 & Hrun & Hi1 & Hk1 & Hkeep);
  rewrite (bind_some _ _ _ _ _ Hrun).

Ltac append_field m0 Hi Hk Hs k m1 Hi1 Hk1 :=
  let Hrun := fresh "Hrun" in
  destruct (go_append_owned m0 _ _ _ _ _ Hi Hk Hs) as (k & m1 & Hrun & Hi1 & Hk1);
  rewrite (bind_some _ _ _ _ _ Hrun).

(** prefix, then one field: user metadata, phone bytes, graylist,
    blacklist. *)
Lemma prefix_field (m0 m : Mem) (f : Globals -> slice) (p : bytes)
    (arg : slice) (v : bytes) :
  leaves_intact m0 m -> holds m0 (f (globals m0)) p -> p <> [] ->
  holds m arg v ->
  builds m0 m
    (bind (read_global f) (fun g =>
     bind (go_append empty_literal g) (fun key =>
     bind (go_append key arg) (fun key => ret key))))
    (p ++ v).
Proof.
  intros Hi Hg Hp Ha. unfold builds. read_prefix.
  copy_prefix m0 Hi Hg Hp k1 m1 Hi1 Hk1 Hkeep.
  append_field m0 Hi1 Hk1 (Hkeep _ _ Ha) k2 m2 Hi2 Hk2.
  exists k2, m2. auto.
Qed.

(** prefix, then two fields: the read cursor. *)
Lemma prefix_field_field (m0 m : Mem) (f : Globals -> slice) (p : bytes)
    (arg1 arg2 : slice) (v1 v2 : bytes) :
  leaves_intact m0 m -> holds m0 (f (globals m0)) p -> p <> [] ->
  holds m0 arg1 v1 -> holds m0 arg2 v2 ->
  builds m0 m
    (bind (read_global f) (fun g =>
     bind (go_append empty_literal g) (fun prefixCopy =>
     bind (go_append prefixCopy arg1) (fun key =>
     bind (go_append key arg2) (fun key => ret key)))))
    ((p ++ v1) ++ v2).
Proof.
  intros Hi Hg Hp Ha1 Ha2. unfold builds. read_prefix.
  copy_prefix m0 Hi Hg Hp k1 m1 Hi1 Hk1 Hkeep.
  append_field m0 Hi1 Hk1 (holds_intact _ _ _ _ Hi1 Ha1) k2 m2 Hi2 Hk2.
  append_field m0 Hi2 Hk2 (holds_intact _ _ _ _ Hi2 Ha2) k3 m3 Hi3 Hk3.
  exists k3, m3. auto.
Qed.

(** prefix, then the bytes of a new slice: the audit log. *)
Lemma prefix_new (m0 m : Mem) (f : Globals -> slice) (p bs : bytes) :
  leaves_intact m0 m -> holds m0 (f (globals m0)) p -> p <> [] ->
  builds m0 m
    (bind (read_global f) (fun g =>
     bind (go_append empty_literal g) (fun key =>
     bind (new_slice bs) (fun u =>
     bind (go_append key u) (fun key => ret key)))))
    (p ++ bs).
Proof.
  intros Hi Hg Hp. unfold builds. read_prefix.
  copy_prefix m0 Hi Hg Hp k1 m1 Hi1 Hk1 Hkeep.
  destruct (new_slice_fresh m0 m1 bs Hi1) as (u & m2 & Hnew & Hi2 & Hu & Hown).
  rewrite (bind_some _ _ _ _ _ Hnew).
  append_field m0 Hi2 (Hown _ _ Hk1) Hu k3 m3 Hi3 Hk3.
  exists k3, m3. auto.
Qed.

(** prefix, then the timestamp, then the hash: feed and pinned feed. *)
Lemma prefix_new_array (m0 m : Mem) (f : Globals -> slice) (p ts : bytes)
    (postHash : loc) (h : bytes) :
  leaves_intact m0 m -> holds m0 (f (globals m0)) p -> p <> [] ->
  heap m0 !! postHash = Some h ->
  builds m0 m
    (bind (read_global f) (fun g =>
     bind (go_append empty_literal g) (fun key =>
     bind (new_slice ts) (fun t =>
     bind (go_append key t) (fun key =>
     bind (slice_of_array postHash) (fun ph =>
     bind (go_append key ph) (fun key => ret key)))))))
    ((p ++ ts) ++ h).
Proof.
  intros Hi Hg Hp Hh. unfold builds. read_prefix.
  copy_prefix m0 Hi Hg Hp k1 m1 Hi1 Hk1 Hkeep.
  destruct (new_slice_fresh m0 m1 ts Hi1) as (t & m2 & Hnew & Hi2 & Ht & Hown).
  rewrite (bind_some _ _ _ _ _ Hnew).
  append_field m0 Hi2 (Hown _ _ Hk1) Ht k3 m3 Hi3 Hk3.
  destruct (slice_of_array_holds m3 postHash h (array_intact _ _ _ _ Hi3 Hh))
    as [Hslice Hph].
  rewrite (bind_some _ _ _ _ _ Hslice).
  append_field m0 Hi3 Hk3 Hph k4 m4 Hi4 Hk4.
  exists k4, m4. auto.
Qed.

Lemma builds_ok (m0 m : Mem) (c : M slice) (v : bytes) :
  builds m0 m c v ->
  exists r m',
    bind c (fun k => ret (Ok k)) m = Some (r, m') /\
    leaves_intact m0 m' /\
    match r with
    | Ok key => freshly_allocated m0 m' key v
    | Err _ => False
    end.
Proof.
  intros (key & m' & Hrun & Hi & Hk).
  exists (Ok key), m'. rewrite (bind_some _ _ _ _ _ Hrun).
  split; [reflexivity |]. split; [exact Hi |].
  split; [apply Hk | apply (owned_holds m0), Hk].
Qed.

(** A store that a call left intact is again one where the prefix variables
    are as declared. *)
Lemma globals_declared_intact (m m' : Mem) :
  leaves_intact m m' -> globals_declared m -> globals_declared m'.
Proof.
  intros Hi [Hz HF]. pose proof Hi as [Hgl Hh]. split.
  - rewrite Hh; [exact Hz |]. apply elem_of_dom. eauto.
  - rewrite Hgl. eapply Forall2_impl; [exact HF |].
    intros f p Hp. apply (holds_intact m); assumption.
Qed.

(** C10.  In a store where the prefix variables are as declared, every key
    constructor called on slices of the store returns (it does not panic),
    leaves the prefix variables and every array of the store, those of its
    arguments among them, as they were, and any key it returns is a slice of
    an array the store did not have, holding the bytes of the key.  The store
    it leaves is again one where the prefix variables are as declared and
    where every slice of the store before holds what it held, the keys of
    earlier calls among them: the same is true of any further call. *)
Theorem key_constructors_allocate (m : Mem) (c : key_call slice loc)
    (cv : key_call bytes bytes) :
  globals_declared m ->
  args_hold m c cv ->
  exists r m',
    run_call c m = Some (r, m') /\
    leaves_intact m m' /\
    globals_declared m' /\
    (forall s bs, holds m s bs -> holds m' s bs) /\
    match r, construct cv with
    | Ok key, Ok v => freshly_allocated m m' key v
    | Err e, Err e' => e = e'
    | _, _ => False
    end.
Proof.
  intros Hdecl Hargs.
  cut (exists r m',
         run_call c m = Some (r, m') /\
         leaves_intact m m' /\
         match r, construct cv with
         | Ok key, Ok v => freshly_allocated m m' key v
         | Err e, Err e' => e = e'
         | _, _ => False
         end).
  { intros (r & m' & Hrun & Hi & Hr). exists r, m'.
    split; [exact Hrun |]. split; [exact Hi |].
    split; [exact (globals_declared_intact _ _ Hi Hdecl) |].
    split; [| exact Hr].
    intros s bs Hs. exact (holds_intact _ _ _ _ Hi Hs). }
  pose proof (globals_declared_holds m Hdecl) as HF. cbn [map] in HF.
  repeat match goal with
         | Hf : Forall2 _ (_ :: _) (_ :: _) |- _ =>
             apply Forall2_cons_1 in Hf as [[? ?] Hf]
         end.
  pose proof (leaves_intact_refl m) as Hi.
  destruct Hargs; cbn [run_call construct].
  - apply builds_ok. apply prefix_field; assumption.
  - apply builds_ok.
    apply (prefix_new_array m m g_TstampNanosPostHash); assumption.
  - apply builds_ok.
    apply (prefix_new_array m m g_TstampNanosPinnedPostHash); assumption.
  - rewrite phone_string_key_cases.
    unfold InMemory.GlobalStateKeyForPhoneNumberStringToPhoneNumberMetadata.
    destruct (phonenumbers_Parse s "") as [n | e].
    + destruct (new_slice_fresh m m
                  (bytes_of_string (phonenumbers_Format n E164)) Hi)
        as (b & m1 & Hrun & Hi1 & Hb & _).
      rewrite (bind_some _ _ _ _ _ Hrun).
      apply builds_ok. apply prefix_field; assumption.
    + exists (Err (": " +:+
                ("GlobalStateKeyForPhoneNumberStringToPhoneNumberMetadata: " +:+
                 "Problem with phonenumbers.Parse: " +:+ e))), m.
      split; [reflexivity |]. split; [exact Hi | reflexivity].
  - apply builds_ok. apply prefix_field; assumption.
  - apply builds_ok.
    apply (prefix_new m m g_UsernameVerificationAuditLog); assumption.
  - apply builds_ok. apply prefix_field; assumption.
  - apply builds_ok. apply prefix_field; assumption.
  - apply builds_ok. apply prefix_field_field; assumption.
Qed.

End InMemoryKeys.

(** The graylist key of the public key at address 10 of [start_store]. *)
Lemma key_constructors_allocate_witness :
  exists r m',
    @InMemory.run_call doubling_runtime digits_phone_lib no_unicode_lib
      (CallGraylistedProfile public_key_slice) start_store = Some (r, m') /\
    InMemory.leaves_intact start_store m' /\
    match r with
    | Ok key =>
        InMemory.freshly_allocated start_store m' key [x06; x00; x01; x02]
    | Err _ => False
    end.
Proof.
  assert (Hholds : forall l b,
            InMemory.heap start_store !! l = Some b ->
            InMemory.holds start_store
              (InMemory.Slice l 0 (length b) (length b)) b).
  { intros l b Hl. exists b. cbn. rewrite drop_0, firstn_all. auto. }
  destruct (@key_constructors_allocate doubling_runtime digits_phone_lib
              no_unicode_lib start_store
              (CallGraylistedProfile public_key_slice)
              (CallGraylistedProfile key012))
    as (r & m' & Hrun & Hi & _ & _ & Hr).
  - split; [vm_compute; reflexivity |].
    repeat constructor;
      match goal with
      | |- InMemory.holds _ (_ (InMemory.globals start_store)) ?p =>
          apply (Hholds _ p); vm_compute; reflexivity
      end.
  - constructor. apply (Hholds 10 key012). vm_compute. reflexivity.
  - exists r, m'. split; [exact Hrun |]. split; [exact Hi |].
    destruct r; exact Hr.
Defined.

(** * Further properties *)

(** ** The request handlers *)

Section Handlers.
Context `{Externals} `{HandlerExternals}.

(** A handler, step by step: decode, run the primitive, encode. *)
Lemma handler_steps (fes : APIServer) (p : primitive) (body : bytes)
    (w : World) :
  handler_of fes p body w =
  match decode_request p (take MaxRequestBodySizeBytes body) with
  | (_, Some err) =>
      (_AddBadRequestError
         (handler_name p +:+ ": Problem parsing request body: " +:+ err), w)
  | (req, None) =>
      let '(o, w') := run_primitive fes (primitive_of req) w in
      (match outcome_error o with
       | Some err =>
           _AddBadRequestError
             (handler_name p +:+ ": Error processing " +:+ primitive_name p
              +:+ ": " +:+ err)
       | None =>
           match success_response p o with
           | Some res => encode_response (handler_name p) res
           | None => []
           end
       end, w')
  end.
Proof.
  destruct p; cbn [handler_of decode_request];
    unfold GlobalStatePutRemote, GlobalStateGetRemote,
      GlobalStateBatchGetRemote, GlobalStateDeleteRemote,
      GlobalStateSeekRemote;
    match goal with
    | |- context [json_Decode_PutRequest ?b ?r] =>
        destruct (json_Decode_PutRequest b r) as [req [err |]]
    | |- context [json_Decode_GetRequest ?b ?r] =>
        destruct (json_Decode_GetRequest b r) as [req [err |]]
    | |- context [json_Decode_BatchGetRequest ?b ?r] =>
        destruct (json_Decode_BatchGetRequest b r) as [req [err |]]
    | |- context [json_Decode_DeleteRequest ?b ?r] =>
        destruct (json_Decode_DeleteRequest b r) as [req [err |]]
    | |- context [json_Decode_SeekRequest ?b ?r] =>
        destruct (json_Decode_SeekRequest b r) as [req [err |]]
    end;
    try reflexivity;
    cbn [primitive_of run_primitive]; unfold wbind, wret.
  - destruct (GlobalStatePut fes (Put_Key req) (Put_Value req) w)
      as [[e |] w']; reflexivity.
  - destruct (GlobalStateGet fes (Get_Key req) w) as [[v | e] w'];
      reflexivity.
  - destruct (GlobalStateBatchGet fes (BatchGet_KeyList req) w)
      as [[v | e] w']; reflexivity.
  - destruct (GlobalStateDelete fes (Delete_Key req) w) as [[e |] w'];
      reflexivity.
  - destruct (GlobalStateSeek fes (StartPrefix req) (ValidForPrefix req)
                (MaxKeyLen req) (NumToFetch req) (Reverse req)
                (FetchValues req) w) as [[[ks vs] | e] w'];
      reflexivity.
Qed.

(** The request decoded by the handler of [p] asks for a primitive of the
    kind of [p]. *)
Lemma decoded_kind (fes : APIServer) (p : primitive) (body : bytes)
    (req : request) (e : option string) :
  decode_request p body = (req, e) ->
  success_response (primitive_of req) = success_response p /\
  primitive_name (primitive_of req) = primitive_name p /\
  handler_of fes (primitive_of req) = handler_of fes p.
Proof.
  destruct p; cbn [decode_request];
    match goal with
    | |- context [let '(_, _) := ?d in _] => destruct d
    end; intros [= <- <-]; repeat split.
Qed.

Lemma success_response_exists (fes : APIServer) (p : primitive) (w : World) :
  outcome_error (fst (run_primitive fes p w)) = None ->
  exists res, success_response p (fst (run_primitive fes p w)) = Some res.
Proof.
  destruct p; cbn; unfold wbind, wret.
  - destruct (GlobalStatePut _ _ _ _) as [[e |] w']; cbn;
      [discriminate | eauto].
  - destruct (GlobalStateGet _ _ _) as [[v | e] w']; cbn;
      [eauto | discriminate].
  - destruct (GlobalStateBatchGet _ _ _) as [[v | e] w']; cbn;
      [eauto | discriminate].
  - destruct (GlobalStateDelete _ _ _) as [[e |] w']; cbn;
      [discriminate | eauto].
  - destruct (GlobalStateSeek _ _ _ _ _ _ _ _) as [[[ks vs] | e] w']; cbn;
      [eauto | discriminate].
Qed.

(** X1.  A request body that does not decode (read up to the size limit)
    gets one client-error write naming the handler and the decoder's error,
    and nothing else happens: no database call, no POST, the store as it
    was. *)
Theorem handler_rejects_undecodable_body (fes : APIServer) (p : primitive)
    (body : bytes) (w : World) (req : request) (err : string) :
  decode_request p (take MaxRequestBodySizeBytes body) = (req, Some err) ->
  handler_of fes p body w =
  ([WriteBadRequest
      (handler_name p +:+ ": Problem parsing request body: " +:+ err)], w).
Proof. intros Hd. rewrite handler_steps, Hd. reflexivity. Qed.

(** X2.  When the body decodes, the handler changes the world exactly as the
    primitive does on the decoded arguments, whatever it then writes: an
    error of the primitive is written as one client error wrapping it, and a
    result without error is handed to the encoder. *)
Theorem handler_performs_request (fes : APIServer) (p : primitive)
    (body : bytes) (w : World) (req : request) :
  decode_request p (take MaxRequestBodySizeBytes body) = (req, None) ->
  snd (handler_of fes p body w) = snd (run_primitive fes (primitive_of req) w)
  /\
  (forall e,
     outcome_error (fst (run_primitive fes (primitive_of req) w)) = Some e ->
     fst (handler_of fes p body w) =
     [WriteBadRequest
        (handler_name p +:+ ": Error processing " +:+ primitive_name p
         +:+ ": " +:+ e)]) /\
  (outcome_error (fst (run_primitive fes (primitive_of req) w)) = None ->
   exists res,
     success_response p (fst (run_primitive fes (primitive_of req) w))
       = Some res /\
     fst (handler_of fes p body w) = encode_response (handler_name p) res).
Proof.
  intros Hd. rewrite handler_steps, Hd.
  destruct (decoded_kind fes p _ _ _ Hd) as (Hres & _ & _).
  pose proof (success_response_exists fes (primitive_of req) w) as Hex.
  rewrite Hres in Hex.
  destruct (run_primitive fes (primitive_of req) w) as [o w'].
  cbn [fst snd] in *. repeat split.
  - intros e ->. reflexivity.
  - intros Hok. destruct (Hex Hok) as [res Hsome]. exists res.
    rewrite Hok, Hsome. auto.
Qed.

(** X3.  A handler never writes more than one client error, and it writes
    none exactly when the body decodes, the primitive returns no error and
    the response encodes; its only write is then the encoded response. *)
Theorem handler_answers (fes : APIServer) (p : primitive) (body : bytes)
    (w : World) :
  length (List.filter is_bad_request (fst (handler_of fes p body w))) <= 1 /\
  (existsb is_bad_request (fst (handler_of fes p body w)) = false <->
   exists req res written,
     decode_request p (take MaxRequestBodySizeBytes body) = (req, None) /\
     outcome_error (fst (run_primitive fes (primitive_of req) w)) = None /\
     success_response p (fst (run_primitive fes (primitive_of req) w))
       = Some res /\
     json_Encode res = (written, None) /\
     fst (handler_of fes p body w) = [WriteBody written]).
Proof.
  rewrite handler_steps.
  destruct (decode_request p (take MaxRequestBodySizeBytes body))
    as [req [err |]] eqn:Hd.
  - cbn. split; [lia |]. split; [discriminate |].
    intros (? & ? & ? & [=] & _).
  - destruct (decoded_kind fes p _ _ _ Hd) as (Hres & _ & _).
    pose proof (success_response_exists fes (primitive_of req) w) as Hex.
    rewrite Hres in Hex.
    destruct (run_primitive fes (primitive_of req) w) as [o w'] eqn:Hrun.
    cbn [fst snd] in *.
    destruct (outcome_error o) as [e |] eqn:He.
    + cbn. split; [lia |]. split; [discriminate |].
      intros (req' & ? & ? & [= <-] & Hok & _).
      rewrite Hrun in Hok. cbn in Hok. congruence.
    + destruct (Hex eq_refl) as [res Hsome]. rewrite Hsome.
      unfold encode_response.
      destruct (json_Encode res) as [written [e |]] eqn:Hen; cbn.
      * split; [lia |]. split; [discriminate |].
        intros (req' & res' & written' & [= <-] & _ & Hs & Hen' & _).
        rewrite Hrun in Hs. cbn in Hs. congruence.
      * split; [lia |]. split; [| reflexivity].
        intros _. exists req, res, written. rewrite Hrun. auto.
Qed.

(** X4.  The route table serves every request a primitive sends: the URL
    built by the client is the configured node, then the path of a route
    whose handler is the handler of that primitive, which accepts POST and
    checks the shared secret, then the secret as a query parameter; no two
    routes share a path, and every route checks the secret. *)
Theorem routes_serve_client_urls (client owner : APIServer) :
  (forall (p : primitive) (url : string) (body : bytes),
     create_request client p = Ok (url, body) ->
     exists r,
       r ∈ GlobalStateRoutes owner /\
       url = GlobalStateRemoteNode client +:+ Pattern r +:+
             "?shared_secret=" +:+ GlobalStateRemoteNodeSharedSecret client /\
       HandlerFunc r = handler_of owner p /\
       Name r = handler_name p /\
       "POST" ∈ Method r /\
       CheckSecret r = true) /\
  NoDup (map Pattern (GlobalStateRoutes owner)) /\
  Forall (fun r => CheckSecret r = true) (GlobalStateRoutes owner).
Proof.
  split; [| split].
  - intros p url body Hreq.
    destruct (create_request_url client p url body Hreq) as [Hurl _].
    subst url. unfold GlobalStateRoutes.
    destruct p.
    + eexists. split; [apply list_elem_of_here |]. repeat split.
      apply list_elem_of_here.
    + eexists. split; [do 1 apply list_elem_of_further; apply list_elem_of_here |].
      repeat split. apply list_elem_of_here.
    + eexists. split; [do 2 apply list_elem_of_further; apply list_elem_of_here |].
      repeat split. apply list_elem_of_here.
    + eexists. split; [do 3 apply list_elem_of_further; apply list_elem_of_here |].
      repeat split. apply list_elem_of_here.
    + eexists. split; [do 4 apply list_elem_of_further; apply list_elem_of_here |].
      repeat split. apply list_elem_of_here.
  - apply (bool_decide_unpack _). vm_compute. reflexivity.
  - unfold GlobalStateRoutes. repeat constructor.
Qed.

End Handlers.

(** X1 on an empty body, which the decoder of a get request refuses. *)
Lemma handler_rejects_undecodable_body_witness :
  @handler_of (fixed_externals (HttpError "unused")) raw_handler_externals
    local_server (PrimGet []) [] (world_of (healthy_db ∅)) =
  ([WriteBadRequest "GlobalStateGetRemote: Problem parsing request body: EOF"],
   world_of (healthy_db ∅)).
Proof.
  apply (@handler_rejects_undecodable_body
           (fixed_externals (HttpError "unused")) raw_handler_externals
           local_server (PrimGet []) [] (world_of (healthy_db ∅))
           (ReqGet {| Get_Key := [] |}) "EOF").
  reflexivity.
Defined.

(** X2 on a get of a stored key. *)
Lemma handler_performs_request_witness :
  let E := fixed_externals (HttpError "unused") in
  let w := world_of (healthy_db {[ key012 := value_x ]}) in
  snd (@handler_of E raw_handler_externals local_server (PrimGet []) key012 w)
    = snd (@run_primitive E local_server (PrimGet key012) w) /\
  fst (@handler_of E raw_handler_externals local_server (PrimGet []) key012 w)
    = [WriteBody value_x].
Proof.
  intros E w.
  destruct (@handler_performs_request E raw_handler_externals local_server
              (PrimGet []) key012 w (ReqGet {| Get_Key := key012 |}) eq_refl)
    as (Hworld & _ & Hok).
  split; [exact Hworld |].
  destruct (Hok ltac:(vm_compute; reflexivity)) as (res & Hres & ->).
  vm_compute in Hres. injection Hres as <-. reflexivity.
Defined.

(** ** A remote call, end to end *)

Section RemoteCall.
Context (Ec Eo : Externals) (Ho : HandlerExternals).

(** What a primitive returns on the remote path once the POST is answered. *)
Lemma run_primitive_answered (client : APIServer) (p : primitive) (w : World)
    (url : string) (body : bytes) (status : Z) (answer : bytes) :
  GlobalStateRemoteNode client <> "" ->
  @create_request Ec client p = Ok (url, body) ->
  @http_Post Ec url "application/json" body = HttpResponse status answer ->
  fst (@run_primitive Ec client p w) =
  match p with
  | PrimPut _ _ | PrimDelete _ => OutError None
  | PrimGet _ =>
      OutValue
        (Ok (Get_Value
               (fst (@json_Decode_Get Ec answer {| Get_Value := [] |}))))
  | PrimBatchGet _ =>
      OutValueList
        (Ok (BatchGet_ValueList
               (fst (@json_Decode_BatchGet Ec answer
                       {| BatchGet_ValueList := [] |}))))
  | PrimSeek _ _ _ _ _ _ =>
      let res := fst (@json_Decode_Seek Ec answer
                        {| KeysFound := []; ValsFound := [] |}) in
      OutKeysVals (Ok (KeysFound res, ValsFound res))
  end.
Proof.
  intros Hr Hreq Hpost. apply some_remote_node in Hr.
  destruct p; cbn in Hreq |- *;
    unfold GlobalStatePut, GlobalStateGet, GlobalStateBatchGet,
      GlobalStateDelete, GlobalStateSeek, wbind;
    rewrite Hr, Hreq; unfold post, wbind, log, wret; cbn; rewrite Hpost; cbn;
    try reflexivity.
  - destruct (json_Decode_Get _ _); reflexivity.
  - destruct (json_Decode_BatchGet _ _); reflexivity.
  - destruct (json_Decode_Seek _ _); reflexivity.
Qed.

(** A handler whose only write is a body has decoded the request, run the
    primitive without error and encoded its result. *)
Lemma handler_wrote_body (owner : APIServer) (p : primitive) (body : bytes)
    (w : World) (written : bytes) :
  fst (@handler_of Eo Ho owner p body w) = [WriteBody written] ->
  exists req res,
    decode_request p (take MaxRequestBodySizeBytes body) = (req, None) /\
    success_response p (fst (@run_primitive Eo owner (primitive_of req) w))
      = Some res /\
    json_Encode res = (written, None).
Proof.
  rewrite handler_steps.
  destruct (decode_request p (take MaxRequestBodySizeBytes body))
    as [req [err |]] eqn:Hd; [discriminate |].
  destruct (decoded_kind owner p _ _ _ Hd) as (Hres & _ & _).
  pose proof (@success_response_exists Eo owner (primitive_of req) w) as Hex.
  rewrite Hres in Hex.
  destruct (@run_primitive Eo owner (primitive_of req) w) as [o w'] eqn:Hrun.
  cbn [fst snd] in *.
  destruct (outcome_error o) as [e |]; [discriminate |].
  destruct (Hex eq_refl) as [res Hsome]. rewrite Hsome.
  unfold encode_response.
  destruct (json_Encode res) as [written' [e |]] eqn:Hen; [discriminate |].
  intros [= ->]. exists req, res. rewrite Hrun. auto.
Qed.

(** X5.  A call through a remote node returns what the owner computed.  The
    client has a remote node and builds its request; the body is within the
    owner's size limit and the owner's decoder reads the request back; the
    owner's handler answers with one write, and that write is what the POST
    returns (with any status); the client's decoder reads it back as the
    response that was encoded.  Then the primitive at the client returns the
    result the same primitive returns at the owner, whatever the client's own
    database holds. *)
Theorem remote_call_returns_owner_result (client owner : APIServer)
    (p : primitive) (wc wo : World) (url : string) (body written : bytes)
    (status : Z) :
  GlobalStateRemoteNode client <> "" ->
  @create_request Ec client p = Ok (url, body) ->
  length body <= MaxRequestBodySizeBytes ->
  decode_request p body = (request_of p, None) ->
  fst (@handler_of Eo Ho owner p body wo) = [WriteBody written] ->
  @http_Post Ec url "application/json" body = HttpResponse status written ->
  (forall res, json_Encode res = (written, None) ->
               @client_decodes Ec written res) ->
  fst (@run_primitive Ec client p wc) = fst (@run_primitive Eo owner p wo).
Proof.
  intros Hr Hreq Hlen Hd Hwrote Hpost Hcodec.
  rewrite (run_primitive_answered client p wc url body status written
             Hr Hreq Hpost).
  destruct (handler_wrote_body owner p body wo written Hwrote)
    as (req & res & Hd' & Hres & Hen).
  rewrite (take_ge _ _ Hlen), Hd in Hd'. injection Hd' as <-.
  assert (Hp : primitive_of (request_of p) = p) by (destruct p; reflexivity).
  rewrite Hp in Hres.
  specialize (Hcodec res Hen).
  destruct (fst (run_primitive owner p wo)) as [[e |] | [v | e] | [vs | e]
                                               | [[ks vs] | e]];
    destruct p; try discriminate Hres; cbn in Hres;
    injection Hres as <-; cbn in Hcodec; try rewrite Hcodec; reflexivity.
Qed.

End RemoteCall.

(** X5 on a get through a proxy whose POST returns what the owner's handler
    wrote for the stored key. *)
Lemma remote_call_returns_owner_result_witness :
  let Ec := raw_externals (HttpResponse 200 value_x) in
  let Eo := fixed_externals (HttpError "unused") in
  fst (@run_primitive Ec proxy_server (PrimGet key012)
         (world_of (healthy_db ∅))) =
  fst (@run_primitive Eo local_server (PrimGet key012)
         (world_of (healthy_db {[ key012 := value_x ]}))).
Proof.
  intros Ec Eo.
  apply (@remote_call_returns_owner_result Ec Eo raw_handler_externals
           proxy_server local_server (PrimGet key012)
           (world_of (healthy_db ∅))
           (world_of (healthy_db {[ key012 := value_x ]}))
           (remote_url proxy_server RoutePathGlobalStateGetRemote)
           key012 value_x 200).
  - discriminate.
  - reflexivity.
  - vm_compute. lia.
  - reflexivity.
  - vm_compute. reflexivity.
  - reflexivity.
  - intros [r | [v] | r | r | r]; cbn; try discriminate; try exact (fun _ => I).
    intros [= ->]. reflexivity.
Defined.

(** ** The local store, key by key *)

Section LocalStoreFrame.
Context `{Externals}.

Lemma txn_Get_same_at (db db' : DB) (key : bytes) :
  same_at db db' key -> txn_Get db' key = txn_Get db key.
Proof.
  intros (_ & Hg & _ & Hv). unfold txn_Get. rewrite Hg, Hv. reflexivity.
Qed.

Lemma get_in_txn_same_at (db db' : DB) (key : bytes) :
  same_at db db' key -> get_in_txn db' key = get_in_txn db key.
Proof.
  intros Hs. unfold get_in_txn. rewrite (txn_Get_same_at _ _ _ Hs).
  destruct (txn_Get db key) as [item | e] eqn:Hget; [| reflexivity].
  assert (item_key item = key) as Hk.
  { unfold txn_Get in Hget. destruct (db_get_fault db key); [discriminate |].
    destruct (db_kv db !! key); [| discriminate].
    injection Hget as <-. reflexivity. }
  destruct Hs as (_ & _ & Hc & _). unfold Item_ValueCopy. rewrite Hk, Hc.
  reflexivity.
Qed.

Lemma get_local_same_at (db db' : DB) (key : bytes) :
  same_at db db' key -> get_local db' key = get_local db key.
Proof.
  intros Hs. unfold get_local. rewrite (get_in_txn_same_at _ _ _ Hs).
  destruct Hs as (-> & _). reflexivity.
Qed.

Lemma batch_get_loop_same_at (db db' : DB) (keyList acc : list bytes) :
  Forall (same_at db db') keyList ->
  batch_get_loop db' keyList acc = batch_get_loop db keyList acc.
Proof.
  intros Hall. revert acc.
  induction Hall as [| key rest Hs _ IH]; intros acc; [reflexivity |].
  cbn [batch_get_loop]. rewrite (txn_Get_same_at _ _ _ Hs).
  destruct (txn_Get db key) as [item | e] eqn:Hget; [| apply IH].
  assert (item_key item = key) as Hk.
  { unfold txn_Get in Hget. destruct (db_get_fault db key); [discriminate |].
    destruct (db_kv db !! key); [| discriminate].
    injection Hget as <-. reflexivity. }
  destruct Hs as (_ & _ & Hc & _). unfold Item_ValueCopy. rewrite Hk, Hc.
  destruct (db_copy_fault db key); [reflexivity | apply IH].
Qed.

Lemma batch_get_local_same_at (db db' : DB) (keyList : list bytes) :
  db_view_fault db' = db_view_fault db ->
  Forall (same_at db db') keyList ->
  batch_get_local db' keyList = batch_get_local db keyList.
Proof.
  intros Hv Hall. unfold batch_get_local, DB_View.
  rewrite Hv, (batch_get_loop_same_at _ _ _ _ Hall). reflexivity.
Qed.

(** What a write transaction on [key] leaves at another key. *)
Lemma update_same_at (db : DB) (key other : bytes)
    (fn : DB -> DB * option string) :
  other <> key ->
  (forall txn, fst (fn txn) = txn \/
               fst (fn txn) = set_kv (delete key (db_kv txn)) txn \/
               exists v, fst (fn txn) = set_kv (<[key := v]> (db_kv txn)) txn) ->
  same_at db (fst (DB_Update db fn)) other.
Proof.
  intros Hne Hfn. unfold DB_Update. specialize (Hfn db).
  destruct (fn db) as [txn [e |]]; cbn [fst] in *;
    [repeat split |].
  destruct (db_commit_fault db); cbn [fst]; [repeat split |].
  destruct Hfn as [-> | [-> | [v ->]]]; repeat split; cbn.
  - apply lookup_delete_ne. congruence.
  - apply lookup_insert_ne. congruence.
Qed.

Lemma txn_Set_shape (key value : bytes) (txn : DB) :
  fst (txn_Set txn key value) = txn \/
  fst (txn_Set txn key value) = set_kv (delete key (db_kv txn)) txn \/
  exists v, fst (txn_Set txn key value) = set_kv (<[key := v]> (db_kv txn)) txn.
Proof.
  unfold txn_Set. destruct (db_set_fault txn key value); cbn; eauto.
Qed.

Lemma txn_Delete_shape (key : bytes) (txn : DB) :
  fst (txn_Delete txn key) = txn \/
  fst (txn_Delete txn key) = set_kv (delete key (db_kv txn)) txn \/
  exists v, fst (txn_Delete txn key) = set_kv (<[key := v]> (db_kv txn)) txn.
Proof.
  unfold txn_Delete. destruct (db_delete_fault txn key); cbn; eauto.
Qed.

Lemma put_same_at (fes : APIServer) (w : World) (key value other : bytes) :
  GlobalStateRemoteNode fes = "" -> other <> key ->
  same_at (GlobalStateDB w)
          (GlobalStateDB (snd (GlobalStatePut fes key value w))) other.
Proof.
  intros Hl Hne. rewrite (GlobalStatePut_local _ _ _ _ Hl).
  pose proof (update_same_at (GlobalStateDB w) key other
                (fun txn => txn_Set txn key value) Hne (txn_Set_shape key value))
    as Hs.
  destruct (DB_Update _ _); exact Hs.
Qed.

Lemma delete_same_at (fes : APIServer) (w : World) (key other : bytes) :
  GlobalStateRemoteNode fes = "" -> other <> key ->
  same_at (GlobalStateDB w)
          (GlobalStateDB (snd (GlobalStateDelete fes key w))) other.
Proof.
  intros Hl Hne. rewrite (GlobalStateDelete_local _ _ _ Hl).
  pose proof (update_same_at (GlobalStateDB w) key other
                (fun txn => txn_Delete txn key) Hne (txn_Delete_shape key))
    as Hs.
  destruct (DB_Update _ _); exact Hs.
Qed.

(** X6.  On the local path a write touches its own key only: after
    [GlobalStatePut(key, value)] or [GlobalStateDelete(key)], whether it
    succeeded or failed and whatever the engine's state, [GlobalStateGet] of
    any other key and [GlobalStateBatchGet] of any list of other keys return
    what they returned before. *)
Theorem write_leaves_other_keys (fes : APIServer) (w : World)
    (key value other : bytes) (keyList : list bytes) :
  GlobalStateRemoteNode fes = "" ->
  other <> key ->
  key ∉ keyList ->
  fst (GlobalStateGet fes other (snd (GlobalStatePut fes key value w)))
    = fst (GlobalStateGet fes other w) /\
  fst (GlobalStateGet fes other (snd (GlobalStateDelete fes key w)))
    = fst (GlobalStateGet fes other w) /\
  fst (GlobalStateBatchGet fes keyList (snd (GlobalStatePut fes key value w)))
    = fst (GlobalStateBatchGet fes keyList w) /\
  fst (GlobalStateBatchGet fes keyList (snd (GlobalStateDelete fes key w)))
    = fst (GlobalStateBatchGet fes keyList w).
Proof.
  intros Hl Hne Hnotin.
  assert (Hall : forall k, k ∈ keyList -> k <> key) by (intros k Hk ->; auto).
  rewrite !(GlobalStateGet_local _ _ _ Hl), !(GlobalStateBatchGet_local _ _ _ Hl).
  cbn [fst].
  rewrite (get_local_same_at _ _ _ (put_same_at fes w key value other Hl Hne)).
  rewrite (get_local_same_at _ _ _ (delete_same_at fes w key other Hl Hne)).
  rewrite (batch_get_local_same_at (GlobalStateDB w)
             (GlobalStateDB (snd (GlobalStatePut fes key value w))) keyList).
  2: { apply (put_same_at fes w key value other Hl Hne). }
  2: { apply Forall_forall. intros k Hk. apply put_same_at; auto. }
  rewrite (batch_get_local_same_at (GlobalStateDB w)
             (GlobalStateDB (snd (GlobalStateDelete fes key w))) keyList).
  2: { apply (delete_same_at fes w key other Hl Hne). }
  2: { apply Forall_forall. intros k Hk. apply delete_same_at; auto. }
  auto.
Qed.

(** The read of one key inside the loop of [GlobalStateBatchGet], against the
    read transaction of [GlobalStateGet]. *)
Lemma batch_get_loop_pointwise (db : DB) (keyList acc : list bytes) :
  match batch_get_loop db keyList acc with
  | (l, None) =>
      exists vs, l = acc ++ vs /\
                 Forall2 (fun key v => get_in_txn db key = Ok v) keyList vs
  | (_, Some _) => Exists (fun key => is_err (get_in_txn db key) = true) keyList
  end.
Proof.
  revert acc. induction keyList as [| key rest IH]; intros acc.
  - cbn. exists []. rewrite app_nil_r. split; [reflexivity | constructor].
  - cbn [batch_get_loop].
    assert (Hone : get_in_txn db key =
                   match txn_Get db key with
                   | inr _ => Ok []
                   | inl item =>
                       match Item_ValueCopy db item with
                       | Err err =>
                           Err ("GlobalStateGet: Error copying value into new slice: "
                                +:+ err)
                       | Ok v => Ok v
                       end
                   end) by reflexivity.
    destruct (txn_Get db key) as [item | e].
    + destruct (Item_ValueCopy db item) as [v | e].
      * specialize (IH (acc ++ [v])).
        destruct (batch_get_loop db rest (acc ++ [v])) as [l [e |]].
        -- apply Exists_cons_tl. exact IH.
        -- destruct IH as (vs & -> & Hall). exists (v :: vs).
           rewrite <- app_assoc. split; [reflexivity |].
           constructor; [exact Hone | exact Hall].
      * apply Exists_cons_hd. rewrite Hone. reflexivity.
    + specialize (IH (acc ++ [[]])).
      destruct (batch_get_loop db rest (acc ++ [[]])) as [l [e' |]].
      * apply Exists_cons_tl. exact IH.
      * destruct IH as (vs & -> & Hall). exists ([] :: vs).
        rewrite <- app_assoc. split; [reflexivity |].
        constructor; [exact Hone | exact Hall].
Qed.

(** X7.  On the local path [GlobalStateBatchGet] is [GlobalStateGet] key by
    key, within one read transaction: it returns the list [vs] exactly when
    the engine lets the read transaction run and [GlobalStateGet] of the i-th
    key returns the i-th entry of [vs], for every i.  For a key list that is
    not empty the second condition is enough; for the empty list the result
    is the empty list, or the error of a refused transaction. *)
Theorem batch_get_agrees_with_get (fes : APIServer) (w : World)
    (keyList vs : list bytes) :
  GlobalStateRemoteNode fes = "" ->
  (fst (GlobalStateBatchGet fes keyList w) = Ok vs <->
   db_view_fault (GlobalStateDB w) = None /\
   Forall2 (fun key v => fst (GlobalStateGet fes key w) = Ok v) keyList vs) /\
  (keyList <> [] ->
   (fst (GlobalStateBatchGet fes keyList w) = Ok vs <->
    Forall2 (fun key v => fst (GlobalStateGet fes key w) = Ok v) keyList vs)).
Proof.
  intros Hl.
  assert (Hmain :
    fst (GlobalStateBatchGet fes keyList w) = Ok vs <->
    db_view_fault (GlobalStateDB w) = None /\
    Forall2 (fun key v => fst (GlobalStateGet fes key w) = Ok v) keyList vs).
  { rewrite (GlobalStateBatchGet_local _ _ _ Hl). cbn [fst].
    destruct (db_view_fault (GlobalStateDB w)) as [e |] eqn:Hv.
    { rewrite (batch_get_local_closed _ _ _ Hv).
      split; [discriminate | intros [[=] _]]. }
    rewrite (batch_get_local_open _ _ Hv).
    assert (Hget : forall key v,
               fst (GlobalStateGet fes key w) = Ok v <->
               get_in_txn (GlobalStateDB w) key = Ok v).
    { intros key v. rewrite (GlobalStateGet_local _ _ _ Hl). cbn [fst].
      rewrite (get_local_open _ _ Hv). reflexivity. }
    pose proof (batch_get_loop_pointwise (GlobalStateDB w) keyList []) as Hloop.
    destruct (batch_get_loop (GlobalStateDB w) keyList []) as [l [e |]].
    - split; [discriminate |]. intros [_ Hall]. exfalso.
      apply Exists_exists in Hloop. destruct Hloop as (key & Hin & Herr).
      apply list_elem_of_lookup_1 in Hin.
      destruct Hin as [i Hi].
      destruct (Forall2_lookup_l _ _ _ _ _ Hall Hi) as (v & _ & Hgot).
      apply Hget in Hgot. rewrite Hgot in Herr. discriminate.
    - destruct Hloop as (vs' & -> & Hall'). cbn [app]. split.
      + intros [= <-]. split; [reflexivity |].
        eapply Forall2_impl; [exact Hall' |].
        intros key v Hgot. apply Hget. exact Hgot.
      + intros [_ Hall]. f_equal.
        clear Hl. revert vs Hall.
        induction Hall' as [| key v rest vs' Hgot _ IH];
          intros vs Hall; inversion Hall as [| ? v2 ? vs2 Hv2 Hrest]; subst;
          [reflexivity |].
        apply Hget in Hv2. rewrite Hgot in Hv2. injection Hv2 as <-.
        f_equal. apply IH. exact Hrest. }
  split; [exact Hmain |].
  intros Hne. rewrite Hmain. split; [intros [_ Hall]; exact Hall |].
  intros Hall. split; [| exact Hall].
  destruct Hall as [| key v rest vs' Hgot _]; [congruence |].
  rewrite (GlobalStateGet_local _ _ _ Hl) in Hgot. cbn [fst] in Hgot.
  unfold get_local in Hgot.
  destruct (db_view_fault (GlobalStateDB w)); [discriminate | reflexivity].
Qed.

End LocalStoreFrame.

Section StoreChanges.
Context `{Externals}.

(** X8.  The database changes only by a [GlobalStatePut] or
    [GlobalStateDelete] that runs on the local path and returns no error, and
    then at that key alone: the pair is stored, or the key removed.  After
    every other call the database is what it was: a call that returned an
    error, a call through a remote node, a get, a batch get, a seek. *)
Theorem store_changes_only_by_successful_local_writes (fes : APIServer)
    (p : primitive) (w : World) :
  GlobalStateDB (snd (run_primitive fes p w)) = GlobalStateDB w \/
  (GlobalStateRemoteNode fes = "" /\
   outcome_error (fst (run_primitive fes p w)) = None /\
   match p with
   | PrimPut key value =>
       GlobalStateDB (snd (run_primitive fes p w)) =
       set_kv (<[key := value]> (db_kv (GlobalStateDB w))) (GlobalStateDB w)
   | PrimDelete key =>
       GlobalStateDB (snd (run_primitive fes p w)) =
       set_kv (delete key (db_kv (GlobalStateDB w))) (GlobalStateDB w)
   | PrimGet _ | PrimBatchGet _ | PrimSeek _ _ _ _ _ _ => False
   end).
Proof.
  destruct (String.eqb_spec (GlobalStateRemoteNode fes) "") as [Hl | Hr].
  2: { left. apply (run_primitive_remote fes p w Hr). }
  destruct p; cbn [run_primitive]; unfold wbind, wret.
  - rewrite (GlobalStatePut_local _ _ _ _ Hl).
    unfold DB_Update, txn_Set.
    destruct (db_set_fault (GlobalStateDB w) key value); cbn; [auto |].
    destruct (db_commit_fault (GlobalStateDB w)); cbn; auto.
  - rewrite (GlobalStateGet_local _ _ _ Hl). cbn. auto.
  - rewrite (GlobalStateBatchGet_local _ _ _ Hl). cbn. auto.
  - rewrite (GlobalStateDelete_local _ _ _ Hl).
    unfold DB_Update, txn_Delete.
    destruct (db_delete_fault (GlobalStateDB w) key); cbn; [auto |].
    destruct (db_commit_fault (GlobalStateDB w)); cbn; auto.
  - left. unfold GlobalStateSeek. rewrite (no_remote_node _ Hl).
    unfold seek, wbind, log, wret. cbn.
    destruct (DBGetPaginatedKeysAndValuesForPrefix _ _ _ _ _ _ _)
      as [[ks vs] | e]; reflexivity.
Qed.

End StoreChanges.

(** X6 on a store holding two keys: a write at one of them. *)
Lemma write_leaves_other_keys_witness :
  let E := fixed_externals (HttpError "unused") in
  let w := world_of (healthy_db {[ key012 := value_x; key999 := value_x ]}) in
  fst (@GlobalStateGet E local_server key999
         (snd (@GlobalStatePut E local_server key012 [] w))) = Ok value_x /\
  fst (@GlobalStateBatchGet E local_server [key999]
         (snd (@GlobalStateDelete E local_server key012 w))) = Ok [value_x].
Proof.
  intros E w.
  destruct (@write_leaves_other_keys E local_server w key012 [] key999
              [key999] eq_refl)
    as (Hget & _ & _ & Hbatch).
  - discriminate.
  - apply (bool_decide_unpack _). vm_compute. reflexivity.
  - rewrite Hget, Hbatch. split; vm_compute; reflexivity.
Defined.

(** X7 on a stored key and an absent one, and on the empty list with a
    closed store. *)
Lemma batch_get_agrees_with_get_witness :
  let E := fixed_externals (HttpError "unused") in
  let w := world_of (healthy_db {[ key012 := value_x ]}) in
  Forall2 (fun key v => fst (@GlobalStateGet E local_server key w) = Ok v)
          [key012; key999] [value_x; []] /\
  fst (@GlobalStateBatchGet E local_server []
         (world_of (closed_db ∅ "DB Closed"))) <> Ok [].
Proof.
  intros E w. split.
  - destruct (@batch_get_agrees_with_get E local_server w [key012; key999]
                [value_x; []] eq_refl) as [_ Hsome].
    apply Hsome; [discriminate | vm_compute; reflexivity].
  - destruct (@batch_get_agrees_with_get E local_server
                (world_of (closed_db ∅ "DB Closed")) [] [] eq_refl)
      as [Hiff _].
    intros Hok. apply Hiff in Hok. destruct Hok as [Hv _]. discriminate Hv.
Defined.

(** ** Which records share a key *)

Section KeySpace.
Context `{PhoneLib} `{UnicodeLib}.

Lemma EncodeUint64_length (num : Z) : length (EncodeUint64 num) = 8.
Proof. reflexivity. Qed.

Lemma bytes_of_string_inj (s1 s2 : string) :
  bytes_of_string s1 = bytes_of_string s2 -> s1 = s2.
Proof.
  unfold bytes_of_string. intros Hb.
  rewrite <- (string_of_list_byte_of_string s1),
          <- (string_of_list_byte_of_string s2), Hb.
  reflexivity.
Qed.

(** X9.  A key with one byte-slice field determines that field: two public
    keys with the same user-metadata key, the same graylist key or the same
    blacklist key are the same public key, and two formatted phone numbers
    with the same key are the same bytes. *)
Theorem single_field_keys_injective :
  (forall pk1 pk2 : bytes,
     GlobalStateKeyForPublicKeyToUserMetadata pk1 =
     GlobalStateKeyForPublicKeyToUserMetadata pk2 -> pk1 = pk2) /\
  (forall pk1 pk2 : bytes,
     GlobalStateKeyForGraylistedProfile pk1 =
     GlobalStateKeyForGraylistedProfile pk2 -> pk1 = pk2) /\
  (forall pk1 pk2 : bytes,
     GlobalStateKeyForBlacklistedProfile pk1 =
     GlobalStateKeyForBlacklistedProfile pk2 -> pk1 = pk2) /\
  (forall b1 b2 : bytes,
     globalStateKeyForPhoneNumberBytesToPhoneNumberMetadata b1 =
     globalStateKeyForPhoneNumberBytesToPhoneNumberMetadata b2 -> b1 = b2).
Proof.
  repeat split; intros a b Hk; injection Hk as ->; reflexivity.
Qed.

(** X10.  A feed key and a pinned-post key determine their fields: two such
    keys are equal exactly when the encoded timestamps are equal and the post
    hashes are equal, because the encoded timestamp has a fixed width. *)
Theorem feed_keys_determine_fields :
  (forall (t1 t2 : Z) (h1 h2 : bytes),
     GlobalStateKeyForTstampPostHash t1 h1 =
     GlobalStateKeyForTstampPostHash t2 h2 <->
     EncodeUint64 t1 = EncodeUint64 t2 /\ h1 = h2) /\
  (forall (t1 t2 : Z) (h1 h2 : bytes),
     GlobalStateKeyForTstampPinnedPostHash t1 h1 =
     GlobalStateKeyForTstampPinnedPostHash t2 h2 <->
     EncodeUint64 t1 = EncodeUint64 t2 /\ h1 = h2).
Proof.
  split; intros t1 t2 h1 h2;
    unfold GlobalStateKeyForTstampPostHash,
      GlobalStateKeyForTstampPinnedPostHash;
    (split; [| intros [-> ->]; reflexivity]);
    intros Hk; apply app_inj_1 in Hk;
    try (rewrite !length_app, !EncodeUint64_length; reflexivity);
    destruct Hk as [Ht ->]; apply app_inv_head in Ht; auto.
Qed.

(** X11.  The read-cursor key is the two public keys one after the other,
    with no length in between.  When the two user keys have the same length
    the key determines both fields; without that, moving a byte from the end
    of the user key to the start of the contact key gives the same key. *)
Theorem read_cursor_key_fields :
  (forall u1 c1 u2 c2 : bytes,
     length u1 = length u2 ->
     GlobalStateKeyForUserPkContactPkToMostRecentReadTstampNanos u1 c1 =
     GlobalStateKeyForUserPkContactPkToMostRecentReadTstampNanos u2 c2 ->
     u1 = u2 /\ c1 = c2) /\
  (forall (u c : bytes) (b : byte),
     GlobalStateKeyForUserPkContactPkToMostRecentReadTstampNanos (u ++ [b]) c =
     GlobalStateKeyForUserPkContactPkToMostRecentReadTstampNanos u (b :: c)).
Proof.
  unfold GlobalStateKeyForUserPkContactPkToMostRecentReadTstampNanos. split.
  - intros u1 c1 u2 c2 Hlen Hk.
    apply app_inj_1 in Hk; [| rewrite !length_app, Hlen; reflexivity].
    destruct Hk as [Hu ->]. apply app_inv_head in Hu. auto.
  - intros u c b. rewrite !app_nil_l, <- !app_assoc. reflexivity.
Qed.

Lemma lower_byte_eq (c1 c2 : ascii) :
  lower_byte c1 = lower_byte c2 -> c1 = c2 \/ case_pair c1 c2.
Proof.
  unfold lower_byte, is_upper. intros Hl.
  pose proof (nat_ascii_bounded c1) as Hb1.
  pose proof (nat_ascii_bounded c2) as Hb2.
  destruct ((65 <=? nat_of_ascii c1)%nat && (nat_of_ascii c1 <=? 90)%nat)
    eqn:Hu1;
    destruct ((65 <=? nat_of_ascii c2)%nat && (nat_of_ascii c2 <=? 90)%nat)
      eqn:Hu2.
  - left. apply (f_equal nat_of_ascii) in Hl.
    apply andb_true_iff in Hu1 as [Ha1 Hz1]. apply andb_true_iff in Hu2 as [Ha2 Hz2].
    apply Nat.leb_le in Ha1, Hz1, Ha2, Hz2.
    rewrite !nat_ascii_embedding in Hl by lia.
    rewrite <- (ascii_nat_embedding c1), <- (ascii_nat_embedding c2).
    f_equal. lia.
  - right. apply andb_true_iff in Hu1 as [Ha1 Hz1].
    apply Nat.leb_le in Ha1, Hz1.
    exists (nat_of_ascii c1 - 65)%nat. split; [lia |]. left. split.
    + rewrite <- (ascii_nat_embedding c1) at 1. f_equal. lia.
    + rewrite <- Hl. f_equal. lia.
  - right. apply andb_true_iff in Hu2 as [Ha2 Hz2].
    apply Nat.leb_le in Ha2, Hz2.
    exists (nat_of_ascii c2 - 65)%nat. split; [lia |]. right. split.
    + rewrite Hl. f_equal. lia.
    + rewrite <- (ascii_nat_embedding c2) at 1. f_equal. lia.
  - left. exact Hl.
Qed.

Lemma string_map_lower_eq (s1 s2 : string) :
  string_map lower_byte s1 = string_map lower_byte s2 ->
  differ_only_in_case s1 s2.
Proof.
  revert s2. induction s1 as [| c1 s1 IH]; intros [| c2 s2]; cbn;
    try discriminate.
  - intros _. constructor.
  - intros [= Hc Hs]. destruct (lower_byte_eq _ _ Hc) as [-> | Hp].
    + apply doic_same. auto.
    + apply doic_case; auto.
Qed.

(** X12.  Only letter case is ignored in an audit-log key: two usernames of
    ASCII bytes with the same key differ only in letter case. *)
Theorem audit_log_key_separates_usernames (u1 u2 : string) :
  isASCII u1 = true ->
  isASCII u2 = true ->
  GlobalStateKeyForUsernameVerificationAuditLogs u1 =
  GlobalStateKeyForUsernameVerificationAuditLogs u2 ->
  differ_only_in_case u1 u2.
Proof.
  intros Ha1 Ha2. unfold GlobalStateKeyForUsernameVerificationAuditLogs.
  rewrite (strings_ToLower_ascii u1 Ha1), (strings_ToLower_ascii u2 Ha2).
  intros Hk. apply app_inv_head, bytes_of_string_inj in Hk.
  apply string_map_lower_eq. exact Hk.
Qed.

(** X13.  Phone numbers are keyed by their E.164 form: two strings that
    parse get the same key exactly when their parsed numbers format to the
    same E.164 string. *)
Theorem phone_keys_by_e164 (s1 s2 : string) (n1 n2 : PhoneNumber) :
  phonenumbers_Parse s1 "" = Ok n1 ->
  phonenumbers_Parse s2 "" = Ok n2 ->
  (GlobalStateKeyForPhoneNumberStringToPhoneNumberMetadata s1 =
   GlobalStateKeyForPhoneNumberStringToPhoneNumberMetadata s2 <->
   phonenumbers_Format n1 E164 = phonenumbers_Format n2 E164).
Proof.
  intros Hp1 Hp2. rewrite !phone_string_key_cases, Hp1, Hp2. split.
  - intros [= Hk]. apply bytes_of_string_inj. exact Hk.
  - intros ->. reflexivity.
Qed.

End KeySpace.

(** X12 on [Bob_7] and [bOB_7], which share a key. *)
Lemma audit_log_key_separates_usernames_witness :
  differ_only_in_case "Bob_7" "bOB_7".
Proof.
  apply (@audit_log_key_separates_usernames no_unicode_lib "Bob_7" "bOB_7");
    reflexivity.
Defined.

(** X13 on a number with and without punctuation. *)
Lemma phone_keys_by_e164_witness :
  @GlobalStateKeyForPhoneNumberStringToPhoneNumberMetadata digits_phone_lib
    "+1 (650) 253-0000" =
  @GlobalStateKeyForPhoneNumberStringToPhoneNumberMetadata digits_phone_lib
    "+16502530000".
Proof.
  apply (@phone_keys_by_e164 digits_phone_lib "+1 (650) 253-0000"
           "+16502530000" "16502530000" "16502530000" eq_refl eq_refl).
  reflexivity.
Defined.
